(** * Yupress: request binding and response encoding in front of Express handlers

    A shallow embedding of [src/lib/yupress.ts].  JavaScript values are a
    small dynamically typed universe ([jsval]); code that can throw lives in
    a writer-and-exception monad [M] whose log records, in program order,
    every call the library makes on its collaborators: the schema's
    [validate] and [cast], the handler, the service factories and the
    methods of the Express response. *)

From Stdlib Require Import ZArith String Ascii List Bool Lia.
From Stdlib Require Import DecimalString DecimalNat DecimalZ.
From stdpp Require Import base option gmap strings.
Import ListNotations.

Local Open Scope string_scope.
Local Open Scope list_scope.

(* ================================================================== *)
(** ** JavaScript values *)
(* ================================================================== *)

(** Numbers are the integers (floating point is outside the embedding).
    An object lists its own enumerable string-keyed properties in
    enumeration order; keys are unique and none is an array index, so that
    enumeration order is insertion order. *)
Unset Elimination Schemes.
Inductive jsval : Type :=
| JUndefined
| JNull
| JBool (b : bool)
| JNum (n : Z)
| JStr (s : string)
| JArr (items : list jsval)
| JObj (props : list (string * jsval)).
Set Elimination Schemes.

Section jsval_induction.
Variable P : jsval -> Prop.
Hypothesis Hundefined : P JUndefined.
Hypothesis Hnull : P JNull.
Hypothesis Hbool : forall b, P (JBool b).
Hypothesis Hnum : forall n, P (JNum n).
Hypothesis Hstr : forall s, P (JStr s).
Hypothesis Harr : forall items, Forall P items -> P (JArr items).
Hypothesis Hobj : forall props, Forall (fun kv => P (snd kv)) props -> P (JObj props).

Fixpoint jsval_induction (v : jsval) : P v :=
  match v with
  | JUndefined => Hundefined
  | JNull => Hnull
  | JBool b => Hbool b
  | JNum n => Hnum n
  | JStr s => Hstr s
  | JArr items =>
      Harr items
        ((fix all (l : list jsval) : Forall P l :=
            match l with
            | [] => List.Forall_nil P
            | x :: rest => List.Forall_cons P x rest (jsval_induction x) (all rest)
            end) items)
  | JObj props =>
      Hobj props
        ((fix all (l : list (string * jsval)) : Forall (fun kv => P (snd kv)) l :=
            match l with
            | [] => List.Forall_nil _
            | kv :: rest =>
                List.Forall_cons _ kv rest (jsval_induction (snd kv)) (all rest)
            end) props)
  end.
End jsval_induction.

(** What a [throw] carries: any value, or a native error raised by the
    runtime or a library ([TypeError], yup's [ValidationError]). *)
Inductive exn : Type :=
| Thrown (v : jsval)
| Native (name message : string).

Definition TypeError : exn := Native "TypeError" "cannot read property".

Module JS.

Fixpoint lookupProp (k : string) (props : list (string * jsval)) : jsval :=
  match props with
  | [] => JUndefined
  | (k', v) :: rest => if String.eqb k k' then v else lookupProp k rest
  end.

(** [o[k] = v] on the property list: an existing key keeps its place. *)
Fixpoint setProp (k : string) (v : jsval) (props : list (string * jsval))
  : list (string * jsval) :=
  match props with
  | [] => [(k, v)]
  | (k', v') :: rest =>
      if String.eqb k k' then (k', v) :: rest else (k', v') :: setProp k v rest
  end.

(** lodash [get(value, key)] for a one-segment path; only objects carry
    the keys this program reads ("type", "options", "message", ...). *)
Definition get (v : jsval) (k : string) : jsval :=
  match v with
  | JObj props => lookupProp k props
  | _ => JUndefined
  end.

(** The member expression [v.k]: a [TypeError] on [undefined] and [null]. *)
Definition member (v : jsval) (k : string) : exn + jsval :=
  match v with
  | JUndefined | JNull => inl TypeError
  | _ => inr (get v k)
  end.

Definition truthy (v : jsval) : bool :=
  match v with
  | JUndefined | JNull | JBool false => false
  | JNum n => negb (Z.eqb n 0)
  | JStr s => negb (String.eqb s EmptyString)
  | _ => true
  end.

(** [a || b] *)
Definition or (a b : jsval) : jsval := if truthy a then a else b.

(** A parameter with a default value: the default replaces [undefined]. *)
Definition dflt (arg d : jsval) : jsval :=
  match arg with JUndefined => d | _ => arg end.

(** [v === "s"] *)
Definition isString (v : jsval) (s : string) : bool :=
  match v with JStr s' => String.eqb s' s | _ => false end.

Definition showNat (n : nat) : string := NilZero.string_of_uint (Nat.to_uint n).

Fixpoint indexed {A} (f : A -> jsval) (i : nat) (l : list A) : list (string * jsval) :=
  match l with
  | [] => []
  | x :: rest => (showNat i, f x) :: indexed f (S i) rest
  end.

(** The own enumerable properties lodash's [forOwn] and the object spread
    visit: an object's properties, the elements of an array and the
    characters of a string under their indices, nothing for the rest. *)
Definition ownEntries (v : jsval) : list (string * jsval) :=
  match v with
  | JObj props => props
  | JArr items => indexed (fun x => x) 0 items
  | JStr s => indexed (fun c => JStr (String c EmptyString)) 0 (list_ascii_of_string s)
  | _ => []
  end.

(** The object literal [{ ...props, ...v }]. *)
Definition spread (props : list (string * jsval)) (v : jsval) : list (string * jsval) :=
  fold_left (fun acc kv => setProp (fst kv) (snd kv) acc) (ownEntries v) props.

End JS.

(* ================================================================== *)
(** ** Express response and the log of calls *)
(* ================================================================== *)

(** The four methods of [express.Response] the library calls, with their
    arguments. *)
Inductive ResCall : Type :=
| Cookie (name : string) (value : jsval)
| Header (name : string) (value : jsval)
| Status (code : jsval)
| Send (body : jsval).

Inductive category : Type := Params | Query | Body.

Inductive event : Type :=
| EvValidate (c : category)   (* [schemata.c.validate] was called *)
| EvAction                    (* the handler was invoked *)
| EvGet (name : string)       (* a service property was read *)
| EvFactory (name : string)   (* a service factory was invoked *)
| EvCast                      (* [formatter.cast] was called *)
| EvRes (call : ResCall).     (* a method of [res] was called *)

(** A computation: the events it produced, and a value or the exception
    that ended it. *)
Definition M (A : Type) : Type := (list event * (exn + A))%type.

Definition ret {A} (a : A) : M A := ([], inr a).
Definition throw {A} (e : exn) : M A := ([], inl e).
Definition emit (ev : event) : M unit := ([ev], inr tt).
Definition liftE {A} (r : exn + A) : M A := ([], r).

Definition bind {A B} (m : M A) (f : A -> M B) : M B :=
  match m with
  | (l, inl e) => (l, inl e)
  | (l, inr a) => let (l', r) := f a in (l ++ l', r)
  end.

(** [try { m } catch (e) { h e }] *)
Definition catch {A} (m : M A) (h : exn -> M A) : M A :=
  match m with
  | (l, inl e) => let (l', r) := h e in (l ++ l', r)
  | (l, inr a) => (l, inr a)
  end.

Declare Scope js_scope.
Delimit Scope js_scope with js.
Notation "x <- m ;; k" := (bind m (fun x => k))
  (at level 100, m at next level, right associativity) : js_scope.
Notation "m ;;; k" := (bind m (fun _ => k))
  (at level 100, right associativity) : js_scope.
Local Open Scope js_scope.

Definition resCall (c : ResCall) : M unit := emit (EvRes c).

(** [forOwn(v, (value, name) => f value name)] with a callback that returns
    nothing (the iteration is never cut short). *)
Fixpoint forEntries (f : jsval -> string -> M unit) (l : list (string * jsval)) : M unit :=
  match l with
  | [] => ret tt
  | (name, value) :: rest => f value name ;;; forEntries f rest
  end.

Definition forOwn (v : jsval) (f : jsval -> string -> M unit) : M unit :=
  forEntries f (JS.ownEntries v).

(* ================================================================== *)
(** ** JSON text *)
(* ================================================================== *)

Module JSON.

Definition text := list ascii.

Definition chars (s : string) : text := list_ascii_of_string s.

Definition dquote : ascii := ascii_of_nat 34.
Definition backslash : ascii := ascii_of_nat 92.

Definition hexDigit (n : nat) : ascii :=
  match n with
  | 0 => "0" | 1 => "1" | 2 => "2" | 3 => "3" | 4 => "4" | 5 => "5"
  | 6 => "6" | 7 => "7" | 8 => "8" | 9 => "9" | 10 => "a" | 11 => "b"
  | 12 => "c" | 13 => "d" | 14 => "e" | _ => "f"
  end%char.

(** The escape of one character inside a JSON string literal. *)
Definition quoteChar (c : ascii) : text :=
  let n := nat_of_ascii c in
  if Nat.eqb n 34 then [backslash; dquote]
  else if Nat.eqb n 92 then chars "\\"
  else if Nat.eqb n 8 then chars "\b"
  else if Nat.eqb n 9 then chars "\t"
  else if Nat.eqb n 10 then chars "\n"
  else if Nat.eqb n 12 then chars "\f"
  else if Nat.eqb n 13 then chars "\r"
  else if Nat.ltb n 32 then chars "\u00" ++ [hexDigit (n / 16); hexDigit (n mod 16)]
  else [c].

Definition quote (s : string) : text :=
  dquote :: flat_map quoteChar (chars s) ++ [dquote].

Definition showZ (n : Z) : text := chars (NilZero.string_of_int (Z.to_int n)).

Fixpoint join (parts : list text) : text :=
  match parts with
  | [] => []
  | [p] => p
  | p :: rest => p ++ chars "," ++ join rest
  end.

(** [JSON.stringify(v)] without indentation; [None] is the [undefined] it
    returns for [undefined].  Inside an array [undefined] prints as
    [null]; inside an object a property whose value is [undefined] is
    left out. *)
Fixpoint stringify (v : jsval) : option text :=
  match v with
  | JUndefined => None
  | JNull => Some (chars "null")
  | JBool true => Some (chars "true")
  | JBool false => Some (chars "false")
  | JNum n => Some (showZ n)
  | JStr s => Some (quote s)
  | JArr items =>
      let fix elements (l : list jsval) : list text :=
        match l with
        | [] => []
        | x :: rest =>
            match stringify x with
            | Some t => t
            | None => chars "null"
            end :: elements rest
        end in
      Some (chars "[" ++ join (elements items) ++ chars "]")
  | JObj props =>
      let fix members (l : list (string * jsval)) : list text :=
        match l with
        | [] => []
        | (k, x) :: rest =>
            match stringify x with
            | Some t => (quote k ++ chars ":" ++ t) :: members rest
            | None => members rest
            end
        end in
      Some (chars "{" ++ join (members props) ++ chars "}")
  end.

(** *** Decoding *)

Definition isDigit (c : ascii) : bool :=
  (48 <=? nat_of_ascii c)%nat && (nat_of_ascii c <=? 57)%nat.

Definition isWs (c : ascii) : bool :=
  let n := nat_of_ascii c in
  Nat.eqb n 32 || Nat.eqb n 9 || Nat.eqb n 10 || Nat.eqb n 13.

Fixpoint skipWs (t : text) : text :=
  match t with
  | c :: rest => if isWs c then skipWs rest else t
  | [] => []
  end.

Fixpoint spanDigits (t : text) : text * text :=
  match t with
  | c :: rest =>
      if isDigit c then let (ds, r) := spanDigits rest in (c :: ds, r) else ([], t)
  | [] => ([], [])
  end.

Definition startsFraction (t : text) : bool :=
  match t with
  | c :: _ => Ascii.eqb c "." || Ascii.eqb c "e" || Ascii.eqb c "E"
  | [] => false
  end.

(** The digits of a JSON number: at least one, and no leading zero before
    another digit.  A fraction or an exponent is outside the embedding. *)
Definition parseDigits (t : text) : option (Decimal.uint * text) :=
  let (ds, rest) := spanDigits t in
  match NilEmpty.uint_of_string (string_of_list_ascii ds) with
  | Some u =>
      if Decimal.uint_beq (Decimal.unorm u) u && negb (startsFraction rest)
      then Some (u, rest) else None
  | None => None
  end.

Definition parseNumber (t : text) : option (jsval * text) :=
  match t with
  | c :: rest =>
      if Ascii.eqb c "-" then
        match parseDigits rest with
        | Some (u, r) => Some (JNum (Z.of_int (Decimal.Neg u)), r)
        | None => None
        end
      else
        match parseDigits t with
        | Some (u, r) => Some (JNum (Z.of_int (Decimal.Pos u)), r)
        | None => None
        end
  | [] => None
  end.

Definition hexValue (c : ascii) : option nat :=
  let n := nat_of_ascii c in
  if isDigit c then Some (n - 48)
  else if (97 <=? n)%nat && (n <=? 102)%nat then Some (n - 87)
  else if (65 <=? n)%nat && (n <=? 70)%nat then Some (n - 55)
  else None.

(** [\uXXXX]: the strings of the embedding hold the code units below 256. *)
Definition unicodeEscape (a b c d : ascii) : option ascii :=
  match hexValue a, hexValue b, hexValue c, hexValue d with
  | Some 0, Some 0, Some h, Some l => Some (ascii_of_nat (16 * h + l))
  | _, _, _, _ => None
  end.

Definition simpleEscape (c : ascii) : option ascii :=
  let n := nat_of_ascii c in
  if Nat.eqb n 34 then Some dquote
  else if Nat.eqb n 92 then Some backslash
  else if Nat.eqb n 47 then Some "/"%char
  else if Nat.eqb n 98 then Some (ascii_of_nat 8)
  else if Nat.eqb n 102 then Some (ascii_of_nat 12)
  else if Nat.eqb n 110 then Some (ascii_of_nat 10)
  else if Nat.eqb n 114 then Some (ascii_of_nat 13)
  else if Nat.eqb n 116 then Some (ascii_of_nat 9)
  else None.

Definition consChar (c : ascii) (r : option (string * text)) : option (string * text) :=
  match r with
  | Some (s, rest) => Some (String c s, rest)
  | None => None
  end.

(** The characters of a string literal, after its opening quote. *)
Fixpoint parseChars (t : text) : option (string * text) :=
  match t with
  | [] => None
  | c :: rest =>
      if Ascii.eqb c dquote then Some (EmptyString, rest)
      else if Ascii.eqb c backslash then
        match rest with
        | [] => None
        | e :: rest' =>
            if Ascii.eqb e "u" then
              match rest' with
              | h1 :: h2 :: h3 :: h4 :: rest'' =>
                  match unicodeEscape h1 h2 h3 h4 with
                  | Some x => consChar x (parseChars rest'')
                  | None => None
                  end
              | _ => None
              end
            else
              match simpleEscape e with
              | Some x => consChar x (parseChars rest')
              | None => None
              end
        end
      else if (nat_of_ascii c <? 32)%nat then None
      else consChar c (parseChars rest)
  end.

Fixpoint stripPrefix (w t : text) : option text :=
  match w with
  | [] => Some t
  | c :: w' =>
      match t with
      | c' :: t' => if Ascii.eqb c c' then stripPrefix w' t' else None
      | [] => None
      end
  end.

Definition literal (word : string) (v : jsval) (t : text) : option (jsval * text) :=
  match stripPrefix (chars word) t with
  | Some rest => Some (v, rest)
  | None => None
  end.

(** A value, the elements of an array after its first, and the members of
    an object; every call costs one unit of fuel.  A repeated key keeps its
    first place and takes the last value. *)
Fixpoint parseValue (fuel : nat) (t : text) {struct fuel} : option (jsval * text) :=
  match fuel with
  | 0 => None
  | S fuel' =>
      match skipWs t with
      | [] => None
      | c :: rest =>
          if Ascii.eqb c "n" then literal "null" JNull (c :: rest)
          else if Ascii.eqb c "t" then literal "true" (JBool true) (c :: rest)
          else if Ascii.eqb c "f" then literal "false" (JBool false) (c :: rest)
          else if Ascii.eqb c dquote then
            match parseChars rest with
            | Some (s, r) => Some (JStr s, r)
            | None => None
            end
          else if Ascii.eqb c "[" then
            match skipWs rest with
            | c' :: rest' =>
                if Ascii.eqb c' "]" then Some (JArr [], rest')
                else
                  match parseElements fuel' [] rest with
                  | Some (items, r) => Some (JArr items, r)
                  | None => None
                  end
            | [] => None
            end
          else if Ascii.eqb c "{" then
            match skipWs rest with
            | c' :: rest' =>
                if Ascii.eqb c' "}" then Some (JObj [], rest')
                else
                  match parseMembers fuel' [] rest with
                  | Some (props, r) => Some (JObj props, r)
                  | None => None
                  end
            | [] => None
            end
          else parseNumber (c :: rest)
      end
  end
with parseElements (fuel : nat) (acc : list jsval) (t : text) {struct fuel}
  : option (list jsval * text) :=
  match fuel with
  | 0 => None
  | S fuel' =>
      match parseValue fuel' t with
      | Some (v, r) =>
          match skipWs r with
          | c :: r' =>
              if Ascii.eqb c "," then parseElements fuel' (acc ++ [v]) r'
              else if Ascii.eqb c "]" then Some (acc ++ [v], r')
              else None
          | [] => None
          end
      | None => None
      end
  end
with parseMembers (fuel : nat) (acc : list (string * jsval)) (t : text) {struct fuel}
  : option (list (string * jsval) * text) :=
  match fuel with
  | 0 => None
  | S fuel' =>
      match skipWs t with
      | c :: r0 =>
          if Ascii.eqb c dquote then
            match parseChars r0 with
            | Some (k, r1) =>
                match skipWs r1 with
                | c1 :: r2 =>
                    if Ascii.eqb c1 ":" then
                      match parseValue fuel' r2 with
                      | Some (v, r3) =>
                          match skipWs r3 with
                          | c3 :: r4 =>
                              if Ascii.eqb c3 "," then
                                parseMembers fuel' (JS.setProp k v acc) r4
                              else if Ascii.eqb c3 "}" then
                                Some (JS.setProp k v acc, r4)
                              else None
                          | [] => None
                          end
                      | None => None
                      end
                    else None
                | [] => None
                end
            | None => None
            end
          else None
      | [] => None
      end
  end.

(** [JSON.parse(text)]; [None] is its [SyntaxError]. *)
Definition parse (t : text) : option jsval :=
  match parseValue (S (length t)) t with
  | Some (v, rest) =>
      match skipWs rest with
      | [] => Some v
      | _ => None
      end
  | None => None
  end.

(** *** What decoding gives back *)

(** The value [JSON.parse] returns for the text of [v]. *)
Fixpoint canon (v : jsval) : jsval :=
  match v with
  | JUndefined => JNull
  | JArr items => JArr (map canon items)
  | JObj props =>
      let fix go (l acc : list (string * jsval)) : list (string * jsval) :=
        match l with
        | [] => acc
        | (k, x) :: rest =>
            match x with
            | JUndefined => go rest acc
            | _ => go rest (JS.setProp k (canon x) acc)
            end
        end in
      JObj (go props [])
  | _ => v
  end.

Fixpoint canonProps (l acc : list (string * jsval)) : list (string * jsval) :=
  match l with
  | [] => acc
  | (k, x) :: rest =>
      match x with
      | JUndefined => canonProps rest acc
      | _ => canonProps rest (JS.setProp k (canon x) acc)
      end
  end.

Definition elementText (x : jsval) : text :=
  match stringify x with Some t => t | None => chars "null" end.

Fixpoint memberTexts (props : list (string * jsval)) : list text :=
  match props with
  | [] => []
  | (k, x) :: rest =>
      match stringify x with
      | Some t => (quote k ++ chars ":" ++ t) :: memberTexts rest
      | None => memberTexts rest
      end
  end.

Definition digitChars (u : Decimal.uint) : text := chars (NilEmpty.string_of_uint u).

(** What may come after a value inside a text: nothing, or the comma or
    bracket that ends it. *)
Definition follow (rest : text) : Prop :=
  match rest with
  | [] => True
  | c :: _ => c = ","%char \/ c = "]"%char \/ c = "}"%char
  end.

Definition startsValue (c : ascii) : bool :=
  negb (isWs c) && negb (Ascii.eqb c "]") && negb (Ascii.eqb c "}").

Definition roundtrips (v : jsval) : Prop :=
  forall t, stringify v = Some t ->
  forall fuel rest, length t < fuel -> follow rest ->
  parseValue fuel (t ++ rest) = Some (canon v, rest).

End JSON.

Definition JSON_parse (s : string) : option jsval := JSON.parse (JSON.chars s).

(** [JSON.stringify] as the program calls it: a string, or [undefined]. *)
Definition JSON_stringify (v : jsval) : jsval :=
  match JSON.stringify v with
  | Some t => JStr (string_of_list_ascii t)
  | None => JUndefined
  end.

(* ================================================================== *)
(** ** Schemas *)
(* ================================================================== *)

(** What the program asks of a [yup.Schema]: [validate] (the promise it
    returns is awaited at once, so its rejection is a throw), [cast] as the
    program calls it, with [{strict: true, stripUnknown: true}], and the
    schema's default value. *)
Record Schema : Type := {
  validate : jsval -> exn + jsval;
  cast : jsval -> exn + jsval;
  getDefault : jsval
}.

Module Yup.

(** yup rejects a value with a [ValidationError] that carries a message. *)
Definition ValidationError (message : string) : exn := Native "ValidationError" message.

(** Modelled from the spec: the default of [yup.object(fields)] (yup is a
    library, its code is not in the repository).  It is the value the
    shape takes for [undefined]: nothing when the shape declares no field
    (the spec's "a handler declaring no output shape and returning nothing
    produces an empty-body 200 success"), else the fields' own defaults. *)
Definition objectDefault (fields : list (string * Schema)) : jsval :=
  match fields with
  | [] => JUndefined
  | _ => JObj (map (fun ks => (fst ks, getDefault (snd ks))) fields)
  end.

(** Modelled from the spec: the fields of [cast(raw, {strict, stripUnknown})]
    on an object shape, which "coerces and drops undeclared fields".  Each
    declared field is cast through its own shape; a field that comes out
    [undefined] is left out, and so is every property that is not
    declared. *)
Fixpoint castFields (fields : list (string * Schema)) (props : list (string * jsval))
  : exn + list (string * jsval) :=
  match fields with
  | [] => inr []
  | (k, s) :: rest =>
      match cast s (JS.lookupProp k props) with
      | inl e => inl e
      | inr v =>
          match castFields rest props with
          | inl e => inl e
          | inr out => inr (match v with JUndefined => out | _ => (k, v) :: out end)
          end
      end
  end.

(** Modelled from the spec: [cast] of an object shape.  A value that is
    neither an object nor [undefined] cannot be cast, and "any cast failure
    ... is allowed to propagate as an unhandled fault". *)
Definition objectCast (fields : list (string * Schema)) (v : jsval) : exn + jsval :=
  match v with
  | JUndefined => inr (objectDefault fields)
  | JObj props =>
      match castFields fields props with
      | inl e => inl e
      | inr out => inr (JObj out)
      end
  | _ => inl (Native "TypeError" "the value could not be cast to an object")
  end.

(** Modelled from the spec: the fields of [validate] on an object shape.
    Each declared field is validated through its own shape, in place; the
    properties that are not declared stay. *)
Fixpoint validateFields (fields : list (string * Schema)) (props : list (string * jsval))
  : exn + list (string * jsval) :=
  match fields with
  | [] => inr props
  | (k, s) :: rest =>
      match validate s (JS.lookupProp k props) with
      | inl e => inl e
      | inr v =>
          match validateFields rest props with
          | inl e => inl e
          | inr out => inr (match v with JUndefined => out | _ => JS.setProp k v out end)
          end
      end
  end.

(** Modelled from the spec: [validate] of an object shape, "validate(raw) ->
    typed value, fails with ValidationError (fails on type mismatch or
    missing required fields)". *)
Definition objectValidate (fields : list (string * Schema)) (v : jsval) : exn + jsval :=
  match JS.dflt v (objectDefault fields) with
  | JUndefined => inr JUndefined
  | JObj props =>
      match validateFields fields props with
      | inl e => inl e
      | inr out => inr (JObj out)
      end
  | _ => inl (ValidationError "this must be an object")
  end.

(** Modelled from the spec: [yup.object(fields)], the Shape of the spec's
    data model with its [validate] and [cast] capabilities.  The order of
    the properties of a cast value is the shape's. *)
Definition object (fields : list (string * Schema)) : Schema :=
  {| validate := objectValidate fields;
     cast := objectCast fields;
     getDefault := objectDefault fields |}.

End Yup.

(* ================================================================== *)
(** ** Results *)
(* ================================================================== *)

(** [OK] and [BAD_REQUEST] of http-status-codes. *)
Definition OK : jsval := JNum 200.
Definition BAD_REQUEST : jsval := JNum 400.

Definition yxpError (statusCode body : jsval) : jsval :=
  JObj [("type", JStr "YxpError");
        ("statusCode", statusCode);
        ("body", JS.dflt body (JStr EmptyString))].

Definition yxpSuccess (body statusCode options : jsval) : jsval :=
  JObj [("type", JStr "YxpSuccess");
        ("body", body);
        ("statusCode", JS.dflt statusCode OK);
        ("options", JS.dflt options (JObj []))].

Definition paramError (message : jsval) : jsval := yxpError BAD_REQUEST message.

Definition text (results mimeType options : jsval) : jsval :=
  yxpSuccess results OK
    (JObj (JS.spread [("mimeType", mimeType)] (JS.dflt options (JObj [])))).

Definition html (results options : jsval) : jsval :=
  text results (JStr "text/html") options.

Definition json (results options : jsval) : jsval :=
  text (JSON_stringify results) (JStr "application/json") options.

(** [ResultTypes.has(v)] for [ResultTypes = new Set(["YxpSuccess", "YxpError"])]. *)
Definition ResultTypes_has (v : jsval) : bool :=
  JS.isString v "YxpSuccess" || JS.isString v "YxpError".

Definition isYxpResults (results : jsval) : bool :=
  ResultTypes_has (JS.get results "type").

Definition isYxpSuccess (results : jsval) : M bool :=
  ty <- liftE (JS.member results "type") ;;
  ret (JS.isString ty "YxpSuccess").

Definition sendResults (results : jsval) : M unit :=
  success <- isYxpSuccess results ;;
  (if success : bool then
     options <- liftE (JS.member results "options") ;;
     cookies <- liftE (JS.member options "cookies") ;;
     forOwn (JS.or cookies (JObj [])) (fun value name => resCall (Cookie name value)) ;;;
     options <- liftE (JS.member results "options") ;;
     headers <- liftE (JS.member options "headers") ;;
     forOwn (JS.or headers (JObj [])) (fun value name => resCall (Header name value))
   else ret tt) ;;;
  statusCode <- liftE (JS.member results "statusCode") ;;
  resCall (Status statusCode) ;;;
  body <- liftE (JS.member results "body") ;;
  resCall (Send body).

Definition sendUnknownResponse (results : jsval) (formatter : Schema) : M unit :=
  r <- (if isYxpResults results then ret results
        else
          emit EvCast ;;;
          v <- liftE (cast formatter results) ;;
          ret (json v JUndefined)) ;;
  sendResults r.

Definition BlankReturn : Schema := Yup.object [].

(* ================================================================== *)
(** ** The binding layer *)
(* ================================================================== *)

Variant Response : Type := ResponseHandle (id : nat).

(** The request is the object Express hands over; the program reads its
    [params], [query] and [body]. *)
Record HttpArgs : Type := { req : jsval; res : Response }.

(** [ServiceFactory<P>]: a function of the request and response pair, which
    returns the service or throws. *)
Abbreviation ServiceFactory := (HttpArgs -> exn + jsval)%type.

Module Schemata.
Record t : Type := {
  params : option Schema;
  query : option Schema;
  body : option Schema
}.
(** [{}], the default of [endpoint]'s second parameter. *)
Definition empty : t := {| params := None; query := None; body := None |}.
End Schemata.

(** The data properties of the handler's argument; the service properties
    are read through [Read]. *)
Module EndpointArgs.
Record t : Type := {
  params : jsval;
  query : jsval;
  body : jsval;
  httpArgs : HttpArgs
}.
End EndpointArgs.

(** A handler run, as far as the binding layer is concerned: the handler
    reads service properties of its argument, each read giving a value or
    throwing what the factory threw (which the handler may catch), and ends
    by returning a value or throwing.  Service names differ from the five
    data properties.  A handler or a factory that itself calls a method of
    the response it is handed, and a handler that returns the argument
    object with its getters, are outside this type: the logs hold the
    events of the library's own code and of the reads made by the
    handler. *)
Inductive Action : Type :=
| Return (v : jsval)
| Throw (e : exn)
| Read (name : string) (onValue : jsval -> Action) (onThrow : exn -> Action).

Record Yupress : Type := { serviceFactoryArgs : gmap string ServiceFactory }.

Definition categoryKey (c : category) : string :=
  match c with Params => "params" | Query => "query" | Body => "body" end.

(** [(await schema?.validate(request[c])) || {}] *)
Definition validateWith (c : category) (schema : option Schema) (request : jsval)
  : M jsval :=
  match schema with
  | None => ret (JS.or JUndefined (JObj []))
  | Some s =>
      raw <- liftE (JS.member request (categoryKey c)) ;;
      emit (EvValidate c) ;;;
      v <- liftE (validate s raw) ;;
      ret (JS.or v (JObj []))
  end.

(** [e.message] in the [catch] of [getSchemataArgs]. *)
Definition message (e : exn) : exn + jsval :=
  match e with
  | Native _ m => inr (JStr m)
  | Thrown v => JS.member v "message"
  end.

Definition getSchemataArgs (request : jsval) (schemata : Schemata.t) : M jsval :=
  catch
    (params <- validateWith Params (Schemata.params schemata) request ;;
     query <- validateWith Query (Schemata.query schemata) request ;;
     body <- validateWith Body (Schemata.body schemata) request ;;
     ret (JObj [("params", params); ("query", query); ("body", body)]))
    (fun e => m <- liftE (message e) ;; ret (paramError m)).

(** The getter [memoize(() => factory(httpArgs))] that [addServices] defines
    for [name], run against the cache of this request: the events of the
    read, its outcome, and the cache afterwards.  lodash's [memoize] stores
    a result only when the function returns. *)
Definition readService (y : Yupress) (h : HttpArgs) (cache : gmap string jsval)
    (name : string) : M jsval * gmap string jsval :=
  match serviceFactoryArgs y !! name with
  | None => (ret JUndefined, cache)
  | Some factory =>
      match cache !! name with
      | Some v => ((emit (EvGet name) ;;; ret v), cache)
      | None =>
          match factory h with
          | inr v => ((emit (EvGet name) ;;; emit (EvFactory name) ;;; ret v),
                      <[name := v]> cache)
          | inl e => ((emit (EvGet name) ;;; emit (EvFactory name) ;;; throw e),
                      cache)
          end
      end
  end.

Fixpoint runAction (y : Yupress) (h : HttpArgs) (cache : gmap string jsval)
    (a : Action) : M jsval :=
  match a with
  | Return v => ret v
  | Throw e => throw e
  | Read name onValue onThrow =>
      let '((l, r), cache') := readService y h cache name in
      let (l', r') :=
        runAction y h cache'
          match r with inr v => onValue v | inl e => onThrow e end in
      (l ++ l', r')
  end.

(** [addServices({ ...schemataArgs, req, res })]: the handler's argument,
    every service unread. *)
Definition addServices (schemataArgs : jsval) (h : HttpArgs) : EndpointArgs.t :=
  {| EndpointArgs.params := JS.get schemataArgs "params";
     EndpointArgs.query := JS.get schemataArgs "query";
     EndpointArgs.body := JS.get schemataArgs "body";
     EndpointArgs.httpArgs := h |}.

(** [isYxpResults(e)] for a caught [e]; a native error has no [type]. *)
Definition isYxpResultsExn (e : exn) : bool :=
  match e with
  | Thrown v => isYxpResults v
  | Native _ _ => false
  end.

(** The [catch] clause of [endpoint]. *)
Definition sendOrRethrow (e : exn) : M unit :=
  match e with
  | Thrown v => if isYxpResultsExn e then sendResults v else throw e
  | Native _ _ => throw e
  end.

(** The default of [endpoint]'s third parameter, [formatter = BlankReturn]. *)
Definition formatterOrBlank (formatter : option Schema) : Schema :=
  match formatter with
  | Some f => f
  | None => BlankReturn
  end.

(** The request handler [endpoint(action, schemata, formatter)] returns,
    applied to a request and a response; [inl e] is the rejection of the
    promise it returns. *)
Definition endpoint (y : Yupress) (action : EndpointArgs.t -> Action)
    (schemata : Schemata.t) (formatter : option Schema)
    (request : jsval) (response : Response) : M unit :=
  let formatter := formatterOrBlank formatter in
  schemataArgs <- getSchemataArgs request schemata ;;
  if isYxpResults schemataArgs then sendResults schemataArgs
  else
    catch
      (let h := {| req := request; res := response |} in
       let services := addServices schemataArgs h in
       results <- (emit EvAction ;;; runAction y h ∅ (action services)) ;;
       sendUnknownResponse results formatter)
      sendOrRethrow.

(* ================================================================== *)
(** ** Observations on a run *)
(* ================================================================== *)

(** The calls [forOwn] makes on the response for the entries of [v]. *)
Definition callEvents (mk : string -> jsval -> ResCall) (v : jsval) : list event :=
  map (fun kv => EvRes (mk (fst kv) (snd kv))) (JS.ownEntries v).

(** The calls that send a Success. *)
Definition sentSuccess (options statusCode body : jsval) : list event :=
  callEvents Cookie (JS.or (JS.get options "cookies") (JObj []))
  ++ callEvents Header (JS.or (JS.get options "headers") (JObj []))
  ++ [EvRes (Status statusCode); EvRes (Send body)].

(** The calls that send the Error of a failed validation. *)
Definition rejected (msg : string) : list event :=
  [EvRes (Status (JNum 400)); EvRes (Send (JStr msg))].

Definition isRes (ev : event) : Prop :=
  match ev with EvRes _ => True | _ => False end.

(** An event that is neither a read of a service nor a factory call. *)
Definition quiet (ev : event) : Prop :=
  match ev with EvGet _ | EvFactory _ => False | _ => True end.

Definition statusFirst (log : list event) : Prop :=
  exists code rest, log = EvRes (Status code) :: rest.

(** Validation went through: [getSchemataArgs] gave the three values. *)
Definition validated (request : jsval) (schemata : Schemata.t)
    (l : list event) (schemataArgs : jsval) : Prop :=
  getSchemataArgs request schemata = (l, inr schemataArgs)
  /\ isYxpResults schemataArgs = false.

(** The handler's run in [endpoint]: on the validated values, with no
    service computed yet. *)
Definition handlerRun (y : Yupress) (action : EndpointArgs.t -> Action)
    (schemataArgs request : jsval) (response : Response) : M jsval :=
  let h := {| req := request; res := response |} in
  runAction y h ∅ (action (addServices schemataArgs h)).

Definition attempted (schema : option Schema) (c : category) : list event :=
  match schema with Some _ => [EvValidate c] | None => [] end.

Definition passes (schema : option Schema) (raw : jsval) : Prop :=
  match schema with
  | None => True
  | Some s => exists v, validate s raw = inr v
  end.

Definition failsWith (schema : option Schema) (raw : jsval) (msg : string) : Prop :=
  exists s, schema = Some s /\ validate s raw = inl (Yup.ValidationError msg).

Definition isFactory (name : string) (ev : event) : bool :=
  match ev with EvFactory n => String.eqb n name | _ => false end.

Definition isGet (name : string) (ev : event) : bool :=
  match ev with EvGet n => String.eqb n name | _ => false end.

(** How often the factory of [name] was invoked, and how often the
    property was read. *)
Definition factoryCalls (name : string) (log : list event) : nat :=
  length (List.filter (isFactory name) log).

Definition reads (name : string) (log : list event) : nat :=
  length (List.filter (isGet name) log).

(* ================================================================== *)
(** ** Output shapes that declare fields *)
(* ================================================================== *)

(** An output shape as far as its declared fields go: an object shape,
    whose fields are shapes again, or any other schema. *)
Unset Elimination Schemes.
Inductive Shape : Type :=
| Other (schema : Schema)
| Object (fields : list (string * Shape)).
Set Elimination Schemes.

Section Shape_induction.
Variable P : Shape -> Prop.
Hypothesis Hother : forall s, P (Other s).
Hypothesis Hobject : forall fields, Forall (fun kf => P (snd kf)) fields -> P (Object fields).

Fixpoint Shape_induction (sh : Shape) : P sh :=
  match sh with
  | Other s => Hother s
  | Object fields =>
      Hobject fields
        ((fix all (l : list (string * Shape)) : Forall (fun kf => P (snd kf)) l :=
            match l with
            | [] => List.Forall_nil _
            | kf :: rest =>
                List.Forall_cons _ kf rest (Shape_induction (snd kf)) (all rest)
            end) fields)
  end.
End Shape_induction.

(** The schema a shape stands for: [yup.object] of the fields' schemas. *)
Fixpoint schemaOf (sh : Shape) : Schema :=
  match sh with
  | Other s => s
  | Object fields => Yup.object (map (fun kf => (fst kf, schemaOf (snd kf))) fields)
  end.

Section declaredIn.
Variable conformsTo : Shape -> jsval -> Prop.

(** [k] is a declared field, and [x] is as its shape says. *)
Fixpoint declaredIn (fields : list (string * Shape)) (k : string) (x : jsval) : Prop :=
  match fields with
  | [] => False
  | (k', f) :: rest => (k = k' /\ conformsTo f x) \/ declaredIn rest k x
  end.
End declaredIn.

(** A value with no field that its shape does not declare, at every level
    the shape describes by an object shape. *)
Fixpoint conforms (sh : Shape) (v : jsval) : Prop :=
  match sh with
  | Other _ => True
  | Object fields =>
      match v with
      | JObj props =>
          Forall (fun kx => declaredIn conforms fields (fst kx) (snd kx)) props
      | _ => True
      end
  end.

(** A response body that, decoded, is an object with declared fields only,
    or no body at all. *)
Definition onlyDeclared (fields : list (string * Shape)) (body : jsval) : Prop :=
  body = JUndefined
  \/ exists s props,
       body = JStr s /\ JSON_parse s = Some (JObj props)
       /\ (forall k, In k (map fst props) -> In k (map fst fields))
       /\ conforms (Object fields) (JObj props).

(* ================================================================== *)
(** ** Example endpoints *)
(* ================================================================== *)

Definition noServices : Yupress := {| serviceFactoryArgs := ∅ |}.

Definition anyResponse : Response := ResponseHandle 0.

(** What [getSchemataArgs] gives when no input shape is declared. *)
Definition noArgs : jsval :=
  JObj [("params", JObj []); ("query", JObj []); ("body", JObj [])].

(** A shape that accepts every value as it is, like [yup.mixed()]. *)
Definition mixed : Schema :=
  {| validate := inr; cast := inr; getDefault := JUndefined |}.

(** A field that must be present, like [yup.mixed().required()]. *)
Definition required (label : string) : Schema :=
  {| validate := fun v =>
       match v with
       | JUndefined | JNull =>
           inl (Yup.ValidationError (label ++ " is a required field")%string)
       | _ => inr v
       end;
     cast := inr;
     getDefault := JUndefined |}.

(** A field like [yup.number().integer().required()], as far as the
    examples go: a number is kept, the decimal text of an integer is
    converted to the number, [undefined] is rejected as missing and every
    other value as no number (yup's message for it is abbreviated). *)
Definition integerRequired (label : string) : Schema :=
  {| validate := fun v =>
       match v with
       | JUndefined =>
           inl (Yup.ValidationError (label ++ " is a required field")%string)
       | JNum n => inr (JNum n)
       | JStr s =>
           match NilZero.int_of_string s with
           | Some d => inr (JNum (Z.of_int d))
           | None => inl (Yup.ValidationError (label ++ " must be a number")%string)
           end
       | _ => inl (Yup.ValidationError (label ++ " must be a number")%string)
       end;
     cast := inr;
     getDefault := JUndefined |}.

Definition IdRequired : Schema := Yup.object [("id", integerRequired "id")].

(** The request of the tests that carries its id in the path. *)
Definition paramsReq : jsval := JObj [("params", JObj [("id", JStr "3")])].

Definition leaky : jsval := JObj [("id", JNum 1); ("secret", JStr "secret value")].

Definition withCookie : jsval :=
  yxpSuccess (JStr "hi") JUndefined (JObj [("cookies", JObj [("sid", JStr "1")])]).

Definition unauthorized : jsval := yxpError (JNum 401) (JStr "log in first").

(** The [user] service of a request that carries no session. *)
Definition guarded : Yupress :=
  {| serviceFactoryArgs := {[ "user" := (fun _ => inl (Thrown unauthorized)) ]} |}.

Definition counting : Yupress :=
  {| serviceFactoryArgs := {[ "baz" := (fun _ => inr (JNum 5)) ]} |}.

(** A handler that reads [name] twice and returns what the second read
    gave. *)
Definition readsTwice (name : string) (_ : EndpointArgs.t) : Action :=
  Read name (fun _ => Read name Return Throw) Throw.

(** A handler that reads [name], catches what the read throws, and reads
    again. *)
Definition retries (name : string) (_ : EndpointArgs.t) : Action :=
  Read name Return (fun _ => Read name Return Throw).

(** The output shape of the demonstration's [/api/isme], whose [user]
    declares no [password]; what its handler returns for the first user;
    and what is to be sent. *)
Definition IsMeResponse : list (string * Shape) :=
  [("isme", Other mixed);
   ("user", Object [("id", Other mixed); ("username", Other mixed)])].

Definition isMe : jsval :=
  JObj [("user", JObj [("id", JNum 1); ("username", JStr "michael");
                       ("password", JStr "swordfish")]);
        ("isme", JBool true)].

Definition isMeSent : jsval :=
  JObj [("isme", JBool true);
        ("user", JObj [("id", JNum 1); ("username", JStr "michael")])].


(* ================================================================== *)
(** ** The demonstration application *)
(* ================================================================== *)

Module User.
(** [class User]: the three constructor parameters are its properties. *)
Record t : Type := { id : Z; username : string; password : string }.

(** A [User] instance as the value the handlers see. *)
Definition object (u : t) : jsval :=
  JObj [("id", JNum (id u)); ("username", JStr (username u));
        ("password", JStr (password u))].
End User.

Module Demo.

(** [UNAUTHORIZED] of http-status-codes. *)
Definition UNAUTHORIZED : jsval := JNum 401.

(** [String(n)] for an integer. *)
Definition toString (n : Z) : string := NilZero.string_of_int (Z.to_int n).

(** The entries of [UserManager.users], in the order of the [Map]. *)
Definition users : list User.t :=
  [ {| User.id := 1; User.username := "michael"; User.password := "swordfish" |};
    {| User.id := 3; User.username := "mary"; User.password := "catfish" |} ].

(** [this.users.get(key)]: the keys of the map are numbers. *)
Definition usersGet (key : jsval) : jsval :=
  match key with
  | JNum n =>
      match find (fun u => Z.eqb (User.id u) n) users with
      | Some u => User.object u
      | None => JUndefined
      end
  | _ => JUndefined
  end.

(** [e instanceof ValidationError] *)
Definition isValidationError (e : exn) : bool :=
  match e with
  | Native name _ => String.eqb name "ValidationError"
  | Thrown _ => false
  end.

(** [UserManager.getUser(req)], for the schema [UserCookieSchema] of the
    cookies ([validateSync] throws what [validate] rejects with). *)
Definition getUser (UserCookieSchema : Schema) (request : jsval) : exn + jsval :=
  let attempt :=
    match JS.member request "cookies" with
    | inl e => inl e
    | inr cookies =>
        match validate UserCookieSchema cookies with
        | inl e => inl e
        | inr v =>
            match JS.member v "USERID" with
            | inl e => inl e
            | inr USERID => inr (usersGet USERID)
            end
        end
    end in
  match attempt with
  | inl e =>
      if isValidationError e then inl (Thrown (yxpError UNAUTHORIZED JUndefined))
      else inl e
  | inr u => inr u
  end.

(** [UserManager.login(username, password)]: the cookies of the first user
    with this name and password, or [undefined]. *)
Definition login (username password : jsval) : jsval :=
  match find (fun u => JS.isString username (User.username u)
                       && JS.isString password (User.password u)) users with
  | Some u => JObj [("USERID", JStr (toString (User.id u)))]
  | None => JUndefined
  end.

Definition logout : jsval := JObj [("USERID", JStr EmptyString)].

(** The [user] service of the application. *)
Definition user (UserCookieSchema : Schema) : ServiceFactory :=
  fun h =>
    match getUser UserCookieSchema (req h) with
    | inl e => inl e
    | inr u =>
        if JS.truthy u then inr u
        else inl (Thrown (yxpError UNAUTHORIZED JUndefined))
    end.

Definition yupress (UserCookieSchema : Schema) : Yupress :=
  {| serviceFactoryArgs := {[ "user" := user UserCookieSchema ]} |}.

(** [a === b] where one side is a number, a string or a boolean. *)
Definition strictEq (a b : jsval) : bool :=
  match a, b with
  | JUndefined, JUndefined | JNull, JNull => true
  | JBool x, JBool y => Bool.eqb x y
  | JNum x, JNum y => Z.eqb x y
  | JStr x, JStr y => String.eqb x y
  | _, _ => false
  end.

(** The handler of [/api/isme/:id]. *)
Definition isMeAction (args : EndpointArgs.t) : Action :=
  let id := JS.get (EndpointArgs.params args) "id" in
  Read "user"
    (fun user =>
       match JS.member user "id" with
       | inl e => Throw e
       | inr userId =>
           Return (JObj [("user", user); ("isme", JBool (strictEq id userId))])
       end)
    Throw.

(** The handler of [/api/login]. *)
Definition loginAction (args : EndpointArgs.t) : Action :=
  let body := EndpointArgs.body args in
  let cookies := login (JS.get body "username") (JS.get body "password") in
  if JS.truthy cookies then Return (json (JObj []) (JObj [("cookies", cookies)]))
  else Return (yxpError UNAUTHORIZED (JStr "username/password not found")).

(** The handler of [/api/logout]. *)
Definition logoutAction (_ : EndpointArgs.t) : Action :=
  Return (json (JObj []) (JObj [("cookies", logout)])).

(** The three endpoints of the application, for the schemas it declares
    with yup: the path parameters and the output shape of [/api/isme/:id],
    and the body of [/api/login]. *)
Definition apiIsme (UserCookieSchema IdRequired IsMeResponse : Schema) :=
  endpoint (yupress UserCookieSchema) isMeAction
    {| Schemata.params := Some IdRequired; Schemata.query := None;
       Schemata.body := None |}
    (Some IsMeResponse).

Definition apiLogin (UserCookieSchema LoginSchema : Schema) :=
  endpoint (yupress UserCookieSchema) loginAction
    {| Schemata.params := None; Schemata.query := None;
       Schemata.body := Some LoginSchema |}
    None.

Definition apiLogout (UserCookieSchema : Schema) :=
  endpoint (yupress UserCookieSchema) logoutAction Schemata.empty None.

(** A field in the manner of [yup.number().integer().default(0)], for the
    examples: a number is kept, the decimal text of an integer is
    converted, and nothing gives 0. *)
Definition integerOr0 (label : string) : Schema :=
  {| validate := fun v =>
       match v with
       | JUndefined => inr (JNum 0)
       | JNum n => inr (JNum n)
       | JStr s =>
           match NilZero.int_of_string s with
           | Some d => inr (JNum (Z.of_int d))
           | None => inl (Yup.ValidationError (label ++ " must be a number")%string)
           end
       | _ => inl (Yup.ValidationError (label ++ " must be a number")%string)
       end;
     cast := inr;
     getDefault := JNum 0 |}.

Definition cookieSchema : Schema := Yup.object [("USERID", integerOr0 "USERID")].

End Demo.

(* ================================================================== *)
(** ** Further observations *)
(* ================================================================== *)

(** The schema [schemata] holds for a category. *)
Definition schemaFor (schemata : Schemata.t) (c : category) : option Schema :=
  match c with
  | Params => Schemata.params schemata
  | Query => Schemata.query schemata
  | Body => Schemata.body schemata
  end.

(** The categories [getSchemataArgs] validates before [c]. *)
Definition earlier (c : category) : list category :=
  match c with
  | Params => []
  | Query => [Params]
  | Body => [Params; Query]
  end.

(** What [getSchemataArgs] keeps for a category whose validation went
    through: the value the schema resolved to, an empty object in the place
    of a falsy one and where there is no schema. *)
Definition delivered (schema : option Schema) (raw : jsval) : jsval :=
  match schema with
  | None => JObj []
  | Some s =>
      match validate s raw with
      | inr v => JS.or v (JObj [])
      | inl _ => JObj []
      end
  end.

(** The validation of [raw] rejects with [e], whatever [e] is. *)
Definition rejectsWith (schema : option Schema) (raw : jsval) (e : exn) : Prop :=
  exists s, schema = Some s /\ validate s raw = inl e.

(** A schema whose validation rejects every value with [e], like a
    [yup.mixed().test(...)] whose test throws. *)
Definition rejecting (e : exn) : Schema :=
  {| validate := fun _ => inl e; cast := inr; getDefault := JUndefined |}.

(** No key occurs twice. *)
Fixpoint distinct (keys : list string) : bool :=
  match keys with
  | [] => true
  | k :: rest => negb (existsb (String.eqb k) rest) && distinct rest
  end.

(** [k in v], for the own properties of [v]. *)
Definition hasOwn (v : jsval) (k : string) : bool :=
  existsb (String.eqb k) (map fst (JS.ownEntries v)).

(** An argument of the type [YxpSuccessOptions], or none: [undefined] or an
    object, whose keys are unique as they are in every object. *)
Definition isOptions (options : jsval) : bool :=
  match options with
  | JUndefined => true
  | JObj props => distinct (map fst props)
  | _ => false
  end.

(** The values that JSON represents as they are: no [undefined] inside,
    and objects with unique keys. *)
Fixpoint plainJSON (v : jsval) : bool :=
  match v with
  | JUndefined => false
  | JArr items => forallb plainJSON items
  | JObj props =>
      distinct (map fst props) && forallb (fun kv => plainJSON (snd kv)) props
  | _ => true
  end.

(** The steps of the library's own code before it writes the response:
    a validation, the invocation of the handler, the cast. *)
Definition ownStep (ev : event) : bool :=
  match ev with EvValidate _ | EvAction | EvCast => true | _ => false end.

(** The library's own steps of a log, in their order. *)
Definition ownSteps (log : list event) : list event := List.filter ownStep log.

(** A read of a service, or a factory call. *)
Definition isService (ev : event) : Prop :=
  match ev with EvGet _ | EvFactory _ => True | _ => False end.

(** The validation of a category, if it took place. *)
Definition validation (c : category) (took_place : bool) : list event :=
  if took_place then [EvValidate c] else [].

(** Steps in the order of [endpoint]: each category validated at most
    once, params before query before body; then at most one invocation of
    the handler; then at most one cast. *)
Definition stepsInOrder (steps : list event) : Prop :=
  exists p q b : bool,
    let validations := validation Params p ++ validation Query q ++ validation Body b in
    steps = validations
    \/ steps = validations ++ [EvAction]
    \/ steps = validations ++ [EvAction; EvCast].

(* ================================================================== *)
(** ** Decoding inverts encoding *)
(* ================================================================== *)

Module JSONFacts.
Import JSON.

(** **** Strings *)

Lemma parseChars_quoteChar c t :
  parseChars (quoteChar c ++ t) = consChar c (parseChars t).
Proof.
  destruct c as [[] [] [] [] [] [] [] []]; reflexivity.
Qed.

Lemma parseChars_quoted l : forall rest,
  parseChars (flat_map quoteChar l ++ dquote :: rest)
  = Some (string_of_list_ascii l, rest).
Proof.
  induction l as [|c l IH]; intros rest; [reflexivity|].
  cbn [flat_map]. rewrite <- app_assoc, parseChars_quoteChar, IH. reflexivity.
Qed.

Lemma parseChars_quote s rest :
  match quote s ++ rest with
  | c :: t => c = dquote /\ parseChars t = Some (s, rest)
  | [] => False
  end.
Proof.
  unfold quote. cbn [app]. split; [reflexivity|].
  rewrite <- app_assoc. cbn [app]. rewrite parseChars_quoted.
  unfold chars. rewrite string_of_list_ascii_of_string. reflexivity.
Qed.

(** **** Numbers *)

Lemma follow_not_digit rest :
  follow rest -> spanDigits rest = ([], rest) /\ startsFraction rest = false.
Proof.
  destruct rest as [|c rest]; [split; reflexivity|].
  intros [->|[->| ->]]; split; reflexivity.
Qed.

Lemma spanDigits_digitChars u rest :
  follow rest -> spanDigits (digitChars u ++ rest) = (digitChars u, rest).
Proof.
  intros Hf. destruct (follow_not_digit rest Hf) as [Hs _].
  unfold digitChars, chars.
  induction u; cbn [NilEmpty.string_of_uint list_ascii_of_string app spanDigits];
    try exact Hs;
    change (isDigit _) with true; cbv iota; rewrite IHu; reflexivity.
Qed.

Lemma uint_beq_refl u : Decimal.uint_beq u u = true.
Proof. induction u; simpl; auto. Qed.

Lemma parseDigits_digitChars u rest :
  Decimal.unorm u = u -> follow rest ->
  parseDigits (digitChars u ++ rest) = Some (u, rest).
Proof.
  intros Hn Hf. unfold parseDigits. rewrite (spanDigits_digitChars u rest Hf).
  unfold digitChars, chars. rewrite string_of_list_ascii_of_string, NilEmpty.usu.
  rewrite Hn, uint_beq_refl. destruct (follow_not_digit rest Hf) as [_ ->]. reflexivity.
Qed.

Lemma unorm_to_uint p : Decimal.unorm (Pos.to_uint p) = Pos.to_uint p.
Proof.
  rewrite <- (DecimalPos.Unsigned.to_of (Pos.to_uint p)).
  rewrite DecimalPos.Unsigned.of_to. reflexivity.
Qed.

Lemma showZ_cases n :
  exists u, Decimal.unorm u = u /\ u <> Decimal.Nil
    /\ ((showZ n = digitChars u /\ Z.of_int (Decimal.Pos u) = n)
        \/ (showZ n = "-"%char :: digitChars u /\ Z.of_int (Decimal.Neg u) = n)).
Proof.
  pose proof (DecimalZ.of_to n) as Hz. unfold showZ.
  destruct n as [|p|p]; cbn [Z.to_int] in *.
  - exists Decimal.zero. repeat split; [discriminate|]. left. split; reflexivity.
  - exists (Pos.to_uint p). split; [apply unorm_to_uint|].
    split; [apply DecimalPos.Unsigned.to_uint_nonnil|]. left. split; [|exact Hz].
    cbn [NilZero.string_of_int]. unfold NilZero.string_of_uint, digitChars.
    pose proof (DecimalPos.Unsigned.to_uint_nonnil p).
    destruct (Pos.to_uint p); [contradiction|..]; reflexivity.
  - exists (Pos.to_uint p). split; [apply unorm_to_uint|].
    split; [apply DecimalPos.Unsigned.to_uint_nonnil|]. right. split; [|exact Hz].
    cbn [NilZero.string_of_int]. unfold NilZero.string_of_uint, digitChars.
    pose proof (DecimalPos.Unsigned.to_uint_nonnil p).
    destruct (Pos.to_uint p); [contradiction|..]; reflexivity.
Qed.

Lemma digitChars_head u :
  u <> Decimal.Nil -> exists c t, digitChars u = c :: t /\ isDigit c = true.
Proof.
  destruct u; [contradiction|..]; intros _; eexists _, _; split; reflexivity.
Qed.

Lemma parseNumber_showZ n rest :
  follow rest -> parseNumber (showZ n ++ rest) = Some (JNum n, rest).
Proof.
  intros Hf. destruct (showZ_cases n) as (u & Hn & Hnil & [[-> Hz]|[-> Hz]]).
  - destruct (digitChars_head u Hnil) as (c & t & E & Hd).
    pose proof (parseDigits_digitChars u rest Hn Hf) as Hp.
    rewrite E in *. cbn [app parseNumber] in *.
    assert (Hm : Ascii.eqb c "-" = false).
    { destruct c as [[] [] [] [] [] [] [] []]; try reflexivity; discriminate Hd. }
    rewrite Hm, Hp, Hz. reflexivity.
  - cbn [app parseNumber]. rewrite Ascii.eqb_refl.
    rewrite (parseDigits_digitChars u rest Hn Hf), Hz. reflexivity.
Qed.

(** **** Values *)

Lemma stringify_array items :
  stringify (JArr items) = Some (chars "[" ++ join (map elementText items) ++ chars "]").
Proof.
  reflexivity.
Qed.

Lemma stringify_object props :
  stringify (JObj props) = Some (chars "{" ++ join (memberTexts props) ++ chars "}").
Proof.
  reflexivity.
Qed.

Lemma canon_object props : canon (JObj props) = JObj (canonProps props []).
Proof.
  reflexivity.
Qed.

Lemma digit_startsValue c : isDigit c = true -> startsValue c = true.
Proof. destruct c as [[] [] [] [] [] [] [] []]; try reflexivity; discriminate. Qed.

Lemma stringify_head v t :
  stringify v = Some t -> exists c t', t = c :: t' /\ startsValue c = true.
Proof.
  destruct v as [| |[]|n|s|items|props].
  - discriminate.
  - intros [= <-]. eexists _, _. split; reflexivity.
  - intros [= <-]. eexists _, _. split; reflexivity.
  - intros [= <-]. eexists _, _. split; reflexivity.
  - intros [= <-]. destruct (showZ_cases n) as (u & _ & Hnil & [[-> _]|[-> _]]).
    + destruct (digitChars_head u Hnil) as (c & t' & -> & Hd).
      exists c, t'. split; [reflexivity|]. apply digit_startsValue, Hd.
    + eexists _, _. split; reflexivity.
  - intros [= <-]. eexists _, _. split; reflexivity.
  - rewrite stringify_array. intros [= <-]. eexists _, _. split; reflexivity.
  - rewrite stringify_object. intros [= <-]. eexists _, _. split; reflexivity.
Qed.

Lemma elementText_head x :
  exists c t', elementText x = c :: t' /\ startsValue c = true.
Proof.
  unfold elementText. destruct (stringify x) as [t|] eqn:E.
  - exact (stringify_head x t E).
  - eexists _, _. split; reflexivity.
Qed.

Lemma skipWs_startsValue c t : startsValue c = true -> skipWs (c :: t) = c :: t.
Proof.
  unfold startsValue. cbn [skipWs]. destruct (isWs c); [discriminate|reflexivity].
Qed.

Lemma parseValue_array f body :
  parseValue (S f) ("["%char :: body) =
  match skipWs body with
  | c' :: rest' =>
      if Ascii.eqb c' "]" then Some (JArr [], rest')
      else match parseElements f [] body with
           | Some (items, r) => Some (JArr items, r)
           | None => None
           end
  | [] => None
  end.
Proof. reflexivity. Qed.

Lemma parseValue_object f body :
  parseValue (S f) ("{"%char :: body) =
  match skipWs body with
  | c' :: rest' =>
      if Ascii.eqb c' "}" then Some (JObj [], rest')
      else match parseMembers f [] body with
           | Some (props, r) => Some (JObj props, r)
           | None => None
           end
  | [] => None
  end.
Proof. reflexivity. Qed.

Lemma parseValue_string f body :
  parseValue (S f) (dquote :: body) =
  match parseChars body with
  | Some (s, r) => Some (JStr s, r)
  | None => None
  end.
Proof. reflexivity. Qed.

Lemma parseValue_number f c body :
  isDigit c = true \/ c = "-"%char ->
  parseValue (S f) (c :: body) = parseNumber (c :: body).
Proof.
  intros [H| ->]; [|reflexivity].
  destruct c as [[] [] [] [] [] [] [] []]; try discriminate H; reflexivity.
Qed.

Lemma stringify_None v : stringify v = None -> v = JUndefined.
Proof. destruct v as [| |[]| | | |]; try discriminate; reflexivity. Qed.

Lemma parseValue_elementText x fuel rest :
  roundtrips x -> length (elementText x) < fuel -> follow rest ->
  parseValue fuel (elementText x ++ rest) = Some (canon x, rest).
Proof.
  intros Hx Hl Hf. unfold elementText in *.
  destruct (stringify x) as [t|] eqn:E; [apply Hx; auto|].
  apply stringify_None in E. subst x.
  destruct fuel as [|f]; [inversion Hl|]. reflexivity.
Qed.

Lemma join_cons p q l : join (p :: q :: l) = p ++ ","%char :: join (q :: l).
Proof. reflexivity. Qed.

Lemma parseElements_ok items :
  Forall roundtrips items ->
  forall acc fuel rest, items <> [] ->
  length (join (map elementText items)) + 1 < fuel ->
  parseElements fuel acc (join (map elementText items) ++ "]"%char :: rest)
  = Some (acc ++ map canon items, rest).
Proof.
  induction 1 as [|x items Hx _ IH]; intros acc fuel rest Hne Hl; [contradiction|].
  destruct fuel as [|f]; [lia|]. cbn [parseElements map].
  destruct items as [|y items].
  - cbn [map join] in *.
    rewrite (parseValue_elementText x f _ Hx) by (simpl; auto; lia).
    reflexivity.
  - cbn [map] in *. rewrite join_cons in *. rewrite <- app_assoc. cbn [app].
    rewrite length_app in Hl. cbn [length] in Hl.
    rewrite (parseValue_elementText x f _ Hx) by (simpl; auto; lia).
    cbn [skipWs]. change (isWs ",") with false. cbv iota.
    rewrite Ascii.eqb_refl.
    rewrite IH by (try discriminate; lia).
    rewrite <- app_assoc. reflexivity.
Qed.

Lemma canonProps_silent props acc : memberTexts props = [] -> canonProps props acc = acc.
Proof.
  induction props as [|[k x] props IH]; [reflexivity|]. cbn [memberTexts canonProps].
  destruct (stringify x) eqn:E; [discriminate|].
  apply stringify_None in E. subst x. exact IH.
Qed.

Lemma canonProps_defined k x props acc :
  x <> JUndefined ->
  canonProps ((k, x) :: props) acc = canonProps props (JS.setProp k (canon x) acc).
Proof. destruct x; try reflexivity. contradiction. Qed.

Lemma parseMember f acc k t rest :
  parseMembers (S f) acc (quote k ++ chars ":" ++ t ++ rest) =
  match parseValue f (t ++ rest) with
  | Some (v, r3) =>
      match skipWs r3 with
      | c3 :: r4 =>
          if Ascii.eqb c3 "," then parseMembers f (JS.setProp k v acc) r4
          else if Ascii.eqb c3 "}" then Some (JS.setProp k v acc, r4)
          else None
      | [] => None
      end
  | None => None
  end.
Proof.
  unfold quote. change (chars ":") with [":"%char].
  cbn [parseMembers app skipWs]. change (isWs dquote) with false. cbv iota.
  rewrite Ascii.eqb_refl.
  rewrite <- app_assoc. cbn [app]. rewrite parseChars_quoted.
  unfold chars. rewrite string_of_list_ascii_of_string.
  cbn [skipWs]. change (isWs ":") with false. cbv iota. rewrite Ascii.eqb_refl.
  reflexivity.
Qed.

Lemma quote_length k : 2 <= length (quote k).
Proof. unfold quote. cbn [length]. rewrite length_app. simpl. lia. Qed.

Lemma parseMembers_ok props :
  Forall (fun kv => roundtrips (snd kv)) props ->
  forall acc fuel rest, memberTexts props <> [] ->
  length (join (memberTexts props)) + 1 < fuel ->
  parseMembers fuel acc (join (memberTexts props) ++ "}"%char :: rest)
  = Some (canonProps props acc, rest).
Proof.
  induction 1 as [|[k x] props Hx _ IH]; intros acc fuel rest Hne Hl; [contradiction|].
  cbn [memberTexts snd] in *.
  destruct (stringify x) as [t|] eqn:E.
  - assert (Hu : x <> JUndefined) by (intros ->; discriminate).
    rewrite (canonProps_defined k x props acc Hu).
    destruct fuel as [|f]; [lia|].
    pose proof (quote_length k) as Hq.
    destruct (memberTexts props) as [|m ms] eqn:Em.
    + cbn [join] in *. rewrite <- !app_assoc. cbn [app].
      rewrite !length_app in Hl. cbn [length] in Hl.
      rewrite parseMember. rewrite (Hx t E) by (simpl; auto; lia).
      cbn [skipWs]. change (isWs "}") with false. cbv iota.
      change (Ascii.eqb "}" ",") with false. cbv iota. rewrite Ascii.eqb_refl.
      rewrite canonProps_silent by exact Em. reflexivity.
    + rewrite join_cons in *. rewrite <- !app_assoc. cbn [app].
      rewrite !length_app in Hl. cbn [length] in Hl. rewrite ?length_app in Hl.
      rewrite parseMember. rewrite (Hx t E) by (simpl; auto; lia).
      cbn [skipWs]. change (isWs ",") with false. cbv iota. rewrite Ascii.eqb_refl.
      apply IH; [discriminate|lia].
  - apply stringify_None in E. subst x. cbn [canonProps].
    apply IH; assumption.
Qed.

(** The text of a value, followed by anything that may follow a value,
    parses back to the value, given fuel beyond the length of the text. *)
Lemma roundtrip v : roundtrips v.
Proof.
  induction v as [| |b|n|s|items IH|props IH] using jsval_induction;
    intros t E fuel rest Hl Hf.
  - discriminate.
  - injection E as <-. destruct fuel; [inversion Hl|]. reflexivity.
  - destruct b; injection E as <-; (destruct fuel; [inversion Hl|]); reflexivity.
  - injection E as <-. destruct fuel as [|f]; [inversion Hl|].
    pose proof (parseNumber_showZ n rest Hf) as Hp.
    destruct (showZ_cases n) as (u & _ & Hnil & [[Es _]|[Es _]]).
    + destruct (digitChars_head u Hnil) as (c & t' & Ed & Hd).
      rewrite Es, Ed in *. cbn [app] in *.
      rewrite parseValue_number by (left; exact Hd). exact Hp.
    + rewrite Es in *. cbn [app] in *.
      rewrite parseValue_number by (right; reflexivity). exact Hp.
  - injection E as <-. destruct fuel as [|f]; [inversion Hl|].
    pose proof (parseChars_quote s rest) as Hq.
    destruct (quote s ++ rest) as [|c body] eqn:Eq; [contradiction|].
    destruct Hq as [-> Hq]. rewrite parseValue_string, Hq. reflexivity.
  - rewrite stringify_array in E. injection E as <-.
    destruct fuel as [|f]; [inversion Hl|].
    cbn [chars list_ascii_of_string app]. rewrite parseValue_array.
    rewrite <- app_assoc. cbn [app].
    cbn [chars list_ascii_of_string app length] in Hl. rewrite length_app in Hl.
    cbn [length] in Hl.
    destruct items as [|x items]; [reflexivity|].
    destruct (elementText_head x) as (c & t' & Ec & Hc).
    assert (Ej : exists j, join (map elementText (x :: items)) = c :: j).
    { cbn [map]. destruct (map elementText items); [|rewrite join_cons];
        cbn [join]; rewrite Ec; eauto. }
    destruct Ej as [j Ej]. 
    rewrite (parseElements_ok (x :: items) IH [] f rest) by (try discriminate; lia).
    rewrite Ej. cbn [app]. rewrite (skipWs_startsValue c _ Hc).
    unfold startsValue in Hc. destruct (Ascii.eqb c "]"); [|reflexivity].
    rewrite andb_false_r in Hc. discriminate.
  - rewrite stringify_object in E. injection E as <-.
    destruct fuel as [|f]; [inversion Hl|].
    cbn [chars list_ascii_of_string app]. rewrite parseValue_object.
    rewrite <- app_assoc. cbn [app]. rewrite canon_object.
    cbn [chars list_ascii_of_string app length] in Hl. rewrite length_app in Hl.
    cbn [length] in Hl.
    destruct (memberTexts props) as [|m ms] eqn:Em.
    + cbn [join app skipWs]. change (isWs "}") with false. cbv iota.
      rewrite Ascii.eqb_refl, canonProps_silent by exact Em. reflexivity.
    + assert (Ej : exists j, join (m :: ms) = dquote :: j).
      { assert (Eh : exists m', m = dquote :: m').
        { clear -Em. induction props as [|[k x] props IHp]; [discriminate|].
          cbn [memberTexts] in Em. destruct (stringify x); [|auto].
          injection Em as <- _. unfold quote. cbn [app]. eauto. }
        destruct Eh as [m' ->]. destruct ms; [|rewrite join_cons]; cbn [join app]; eauto. }
      destruct Ej as [j Ej].
      assert (Hne : memberTexts props <> []) by (rewrite Em; discriminate).
      rewrite <- Em in Hl, Ej |- *.
      rewrite (parseMembers_ok props IH [] f rest Hne) by lia.
      rewrite Ej. reflexivity.
Qed.

(** [JSON.parse(JSON.stringify(v))] is [v] up to what [stringify] drops:
    [undefined] in an array comes back as [null], a property whose value
    is [undefined] does not come back. *)
Theorem parse_stringify v t : stringify v = Some t -> parse t = Some (canon v).
Proof.
  intros E. unfold parse.
  pose proof (roundtrip v t E (S (length t)) [] (Nat.lt_succ_diag_r _) I) as H.
  rewrite app_nil_r in H. rewrite H. reflexivity.
Qed.

End JSONFacts.

(* ================================================================== *)
(** ** Sending a Result *)
(* ================================================================== *)

Lemma forEntries_resCall mk l :
  forEntries (fun value name => resCall (mk name value)) l
  = (map (fun kv => EvRes (mk (fst kv) (snd kv))) l, inr tt).
Proof.
  induction l as [|[k v] l IH]; simpl; [reflexivity|].
  rewrite IH. reflexivity.
Qed.

Lemma forOwn_resCall mk v :
  forOwn v (fun value name => resCall (mk name value)) = (callEvents mk v, inr tt).
Proof. apply forEntries_resCall. Qed.

Lemma sendResults_object props :
  sendResults (JObj props) =
  if JS.isString (JS.lookupProp "type" props) "YxpSuccess" then
    match JS.member (JS.lookupProp "options" props) "cookies" with
    | inl e => ([], inl e)
    | inr _ =>
        (sentSuccess (JS.lookupProp "options" props)
           (JS.lookupProp "statusCode" props) (JS.lookupProp "body" props), inr tt)
    end
  else ([EvRes (Status (JS.lookupProp "statusCode" props));
         EvRes (Send (JS.lookupProp "body" props))], inr tt).
Proof.
  unfold sendResults, isYxpSuccess. simpl.
  destruct (JS.isString _ _); [|reflexivity].
  unfold sentSuccess.
  destruct (JS.lookupProp "options" props) eqn:E; simpl; try reflexivity;
    rewrite !forOwn_resCall; simpl; rewrite ?app_nil_r; try reflexivity.
  all: rewrite <- ?app_assoc; reflexivity.
Qed.

(** [sendResults] throws only before its first call on the response, and
    only the [TypeError] of a property read. *)
Lemma sendResults_throws v l e :
  sendResults v = (l, inl e) -> l = [] /\ e = TypeError.
Proof.
  destruct v; try (cbv; intros H; inversion H; auto; fail).
  rewrite sendResults_object.
  destruct (JS.isString _ _); [|discriminate].
  destruct (JS.member _ _) eqn:E; [|discriminate].
  intros H. inversion H; subst. split; [reflexivity|].
  destruct (JS.lookupProp "options" props); simpl in E; congruence.
Qed.

Lemma catch_sendResults v : catch (sendResults v) sendOrRethrow = sendResults v.
Proof.
  destruct (sendResults v) as [l [e|[]]] eqn:E; [|reflexivity].
  apply sendResults_throws in E as [-> ->]. reflexivity.
Qed.

Lemma sendUnknownResponse_results v formatter :
  isYxpResults v = true -> sendUnknownResponse v formatter = sendResults v.
Proof.
  intros H. unfold sendUnknownResponse. rewrite H. simpl.
  destruct (sendResults v) as [l r]. reflexivity.
Qed.

Lemma sendUnknownResponse_plain v formatter :
  isYxpResults v = false ->
  sendUnknownResponse v formatter =
  match cast formatter v with
  | inl e => ([EvCast], inl e)
  | inr v' => (EvCast :: fst (sendResults (json v' JUndefined)),
               snd (sendResults (json v' JUndefined)))
  end.
Proof.
  intros H. unfold sendUnknownResponse. rewrite H. simpl.
  destruct (cast formatter v); reflexivity.
Qed.

Lemma sendResults_json v :
  sendResults (json v JUndefined) =
  ([EvRes (Status (JNum 200)); EvRes (Send (JSON_stringify v))], inr tt).
Proof. reflexivity. Qed.

Lemma sendResults_yxpSuccess body statusCode opts :
  sendResults (yxpSuccess body statusCode (JObj opts)) =
  (sentSuccess (JObj opts) (JS.dflt statusCode OK) body, inr tt).
Proof. unfold yxpSuccess. rewrite sendResults_object. reflexivity. Qed.

Lemma sendResults_yxpError statusCode body :
  sendResults (yxpError statusCode body) =
  ([EvRes (Status statusCode); EvRes (Send (JS.dflt body (JStr EmptyString)))], inr tt).
Proof. reflexivity. Qed.


Lemma callEvents_isRes mk v : Forall isRes (callEvents mk v).
Proof. unfold callEvents. apply Forall_map, Forall_forall. intros; exact I. Qed.

Lemma sendResults_isRes v : Forall isRes (fst (sendResults v)).
Proof.
  destruct v; try (cbv; repeat constructor; fail).
  rewrite sendResults_object.
  destruct (JS.isString _ _).
  - destruct (JS.member _ _); simpl; [constructor|].
    unfold sentSuccess. rewrite !Forall_app. repeat split; try apply callEvents_isRes.
    repeat constructor.
  - repeat constructor.
Qed.


Lemma lookupProp_setProp k k' v acc :
  JS.lookupProp k (JS.setProp k' v acc)
  = if String.eqb k k' then v else JS.lookupProp k acc.
Proof.
  induction acc as [|[k0 v0] acc IH]; cbn [JS.setProp JS.lookupProp].
  - reflexivity.
  - destruct (String.eqb k' k0) eqn:E'; cbn [JS.lookupProp].
    + apply String.eqb_eq in E'. subst k0.
      destruct (String.eqb k k'); reflexivity.
    + destruct (String.eqb k k0) eqn:E0; [|exact IH].
      apply String.eqb_eq in E0. subst k0.
      destruct (String.eqb k k') eqn:E; [|reflexivity].
      apply String.eqb_eq in E. subst k'. rewrite String.eqb_refl in E'. discriminate.
Qed.

(** A property other than [mimeType] of the options [text] builds does not
    depend on the MIME type. *)
Lemma spread_lookup k m m' options :
  String.eqb k "mimeType" = false ->
  JS.lookupProp k (JS.spread [("mimeType", m)] options)
  = JS.lookupProp k (JS.spread [("mimeType", m')] options).
Proof.
  intros Hk. unfold JS.spread.
  assert (H0 : JS.lookupProp k [("mimeType", m)] = JS.lookupProp k [("mimeType", m')])
    by (cbn [JS.lookupProp]; rewrite Hk; reflexivity).
  revert H0. generalize [("mimeType", m)] [("mimeType", m')].
  induction (JS.ownEntries options) as [|[k0 v0] entries IH]; intros acc acc' H0;
    cbn [fold_left fst snd]; [exact H0|].
  apply IH. rewrite !lookupProp_setProp, H0. reflexivity.
Qed.

(* ================================================================== *)
(** ** One request *)
(* ================================================================== *)

(** A request whose validation went through and whose handler returned:
    what is left is to send the returned value. *)
Lemma endpoint_returned y action schemata formatter request response l1 sa l2 v :
  validated request schemata l1 sa ->
  handlerRun y action sa request response = (l2, inr v) ->
  endpoint y action schemata formatter request response =
  let (l3, r) := catch (sendUnknownResponse v (formatterOrBlank formatter)) sendOrRethrow in
  (l1 ++ EvAction :: l2 ++ l3, r).
Proof.
  intros [Hv Hn] Hr. unfold endpoint, handlerRun in *.
  rewrite Hv. simpl. rewrite Hn. rewrite Hr. simpl.
  destruct (sendUnknownResponse v _) as [l3 [e|[]]]; simpl.
  - destruct (sendOrRethrow e) as [l4 r4]. rewrite <- !app_assoc. reflexivity.
  - reflexivity.
Qed.

(** A request whose validation went through and whose handler threw:
    what is left is the [catch] clause. *)
Lemma endpoint_threw y action schemata formatter request response l1 sa l2 e :
  validated request schemata l1 sa ->
  handlerRun y action sa request response = (l2, inl e) ->
  endpoint y action schemata formatter request response =
  let (l3, r) := sendOrRethrow e in (l1 ++ EvAction :: l2 ++ l3, r).
Proof.
  intros [Hv Hn] Hr. unfold endpoint, handlerRun in *.
  rewrite Hv. simpl. rewrite Hn. rewrite Hr. simpl.
  destruct (sendOrRethrow e) as [l4 r4]. reflexivity.
Qed.

(* ================================================================== *)
(** ** Validation *)
(* ================================================================== *)

Lemma validateWith_passes c schema rprops :
  passes schema (JS.lookupProp (categoryKey c) rprops) ->
  exists v, validateWith c schema (JObj rprops) = (attempted schema c, inr v).
Proof.
  destruct schema as [s|]; simpl.
  - intros [v Hv]. unfold validateWith. simpl. rewrite Hv. simpl. eauto.
  - intros _. eexists. reflexivity.
Qed.

Lemma validateWith_fails c schema rprops msg :
  failsWith schema (JS.lookupProp (categoryKey c) rprops) msg ->
  validateWith c schema (JObj rprops)
  = ([EvValidate c], inl (Yup.ValidationError msg)).
Proof.
  intros (s & -> & Hs). unfold validateWith. simpl. rewrite Hs. reflexivity.
Qed.

(* ================================================================== *)
(** ** Services *)
(* ================================================================== *)

Lemma factoryCalls_app name l l' :
  factoryCalls name (l ++ l') = factoryCalls name l + factoryCalls name l'.
Proof. unfold factoryCalls. rewrite List.filter_app, length_app. reflexivity. Qed.

Lemma reads_app name l l' : reads name (l ++ l') = reads name l + reads name l'.
Proof. unfold reads. rewrite List.filter_app, length_app. reflexivity. Qed.

Lemma quiet_counts name l :
  Forall quiet l -> reads name l = 0 /\ factoryCalls name l = 0.
Proof.
  induction 1 as [|ev l Hq _ [IH1 IH2]]; [split; reflexivity|].
  unfold reads, factoryCalls in *. destruct ev; simpl in *; try contradiction; auto.
Qed.

Lemma readService_undeclared y h cache name :
  serviceFactoryArgs y !! name = None ->
  readService y h cache name = (([], inr JUndefined), cache).
Proof. intros H. unfold readService. rewrite H. reflexivity. Qed.

Lemma readService_cached y h cache name f v :
  serviceFactoryArgs y !! name = Some f -> cache !! name = Some v ->
  readService y h cache name = (([EvGet name], inr v), cache).
Proof. intros H Hc. unfold readService. rewrite H, Hc. reflexivity. Qed.

Lemma readService_computed y h cache name f v :
  serviceFactoryArgs y !! name = Some f -> cache !! name = None -> f h = inr v ->
  readService y h cache name
  = (([EvGet name; EvFactory name], inr v), <[name:=v]> cache).
Proof. intros H Hc Hf. unfold readService. rewrite H, Hc, Hf. reflexivity. Qed.

Lemma readService_threw y h cache name f e :
  serviceFactoryArgs y !! name = Some f -> cache !! name = None -> f h = inl e ->
  readService y h cache name = (([EvGet name; EvFactory name], inl e), cache).
Proof. intros H Hc Hf. unfold readService. rewrite H, Hc, Hf. reflexivity. Qed.

Lemma readService_cases y h cache name :
  (serviceFactoryArgs y !! name = None
   /\ readService y h cache name = (([], inr JUndefined), cache))
  \/ (exists v, cache !! name = Some v
       /\ readService y h cache name = (([EvGet name], inr v), cache))
  \/ (exists v, cache !! name = None
       /\ readService y h cache name
          = (([EvGet name; EvFactory name], inr v), <[name:=v]> cache))
  \/ (exists e, cache !! name = None
       /\ readService y h cache name = (([EvGet name; EvFactory name], inl e), cache)).
Proof.
  destruct (serviceFactoryArgs y !! name) as [f|] eqn:E.
  - destruct (cache !! name) as [v|] eqn:Ec.
    + right; left. exists v. split; [reflexivity|]. eapply readService_cached; eauto.
    + destruct (f h) as [e|v] eqn:Ef.
      * right; right; right. exists e. split; [reflexivity|].
        eapply readService_threw; eauto.
      * right; right; left. exists v. split; [reflexivity|].
        eapply readService_computed; eauto.
  - left. split; [reflexivity|]. apply readService_undeclared; exact E.
Qed.

Lemma runAction_read y h cache name onValue onThrow l r cache' :
  readService y h cache name = ((l, r), cache') ->
  runAction y h cache (Read name onValue onThrow) =
  (l ++ fst (runAction y h cache' match r with inr v => onValue v | inl e => onThrow e end),
   snd (runAction y h cache' match r with inr v => onValue v | inl e => onThrow e end)).
Proof.
  intros E. cbn [runAction]. rewrite E.
  destruct (runAction y h cache' _). reflexivity.
Qed.

Section OneService.

Variable y : Yupress.
Variable h : HttpArgs.
Variable name : string.

Lemma readService_other cache n :
  n <> name ->
  let '((l, _), cache') := readService y h cache n in
  reads name l = 0 /\ factoryCalls name l = 0 /\ cache' !! name = cache !! name.
Proof.
  intros Hn.
  assert (E : String.eqb n name = false) by (apply String.eqb_neq; exact Hn).
  destruct (readService_cases y h cache n)
    as [[_ ->]|[(v & _ & ->)|[(v & _ & ->)|(e & _ & ->)]]];
    unfold reads, factoryCalls; simpl; rewrite ?E; simpl; repeat split; auto.
  apply lookup_insert_ne. exact Hn.
Qed.

(** A factory runs only inside a read of its property. *)
Lemma runAction_calls_le_reads a : forall cache,
  factoryCalls name (fst (runAction y h cache a))
  <= reads name (fst (runAction y h cache a)).
Proof.
  induction a as [v|e|n onValue IHv onThrow IHt]; intros cache;
    [reflexivity | reflexivity |].
  destruct (readService y h cache n) as [[l r] cache'] eqn:E.
  rewrite (runAction_read _ _ _ _ _ _ _ _ _ E). cbn [fst].
  rewrite factoryCalls_app, reads_app.
  assert (Hl : factoryCalls name l <= reads name l).
  { destruct (readService_cases y h cache n)
      as [[_ E']|[(v & _ & E')|[(v & _ & E')|(e & _ & E')]]];
      rewrite E' in E; inversion E; subst; unfold factoryCalls, reads; simpl;
      try destruct (String.eqb n name); simpl; lia. }
  destruct r as [e|v]; [specialize (IHt e cache') | specialize (IHv v cache')]; lia.
Qed.

Variable factory : ServiceFactory.
Variable value : jsval.
Hypothesis declared : serviceFactoryArgs y !! name = Some factory.
Hypothesis returns : factory h = inr value.

(** With a factory that returns, a handler run calls it at most once:
    never when the value is cached, once when it is not and the property is
    read. *)
Lemma runAction_once a : forall cache,
  let log := fst (runAction y h cache a) in
  (is_Some (cache !! name) -> factoryCalls name log = 0)
  /\ (cache !! name = None -> 1 <= reads name log -> factoryCalls name log = 1).
Proof.
  induction a as [v|e|n onValue IHv onThrow IHt]; intros cache log; subst log.
  - split; [reflexivity|]. unfold reads; simpl; lia.
  - split; [reflexivity|]. unfold reads; simpl; lia.
  - destruct (String.eq_dec n name) as [->|Hn].
    + destruct (cache !! name) as [v|] eqn:Ec.
      * rewrite (runAction_read _ _ _ _ _ _ _ _ _
                   (readService_cached _ h _ _ _ _ declared Ec)).
        cbn [fst]. split; [|discriminate]. intros _.
        rewrite factoryCalls_app.
        destruct (IHv v cache) as [IH _]. rewrite IH by (rewrite Ec; eauto).
        reflexivity.
      * rewrite (runAction_read _ _ _ _ _ _ _ _ _
                   (readService_computed _ h _ _ _ _ declared Ec returns)).
        cbn [fst]. split; [intros [? ?]; discriminate|]. intros _ _.
        rewrite factoryCalls_app.
        destruct (IHv value (<[name:=value]> cache)) as [IH _].
        rewrite IH by (rewrite lookup_insert_eq; eauto).
        unfold factoryCalls. simpl. rewrite String.eqb_refl. reflexivity.
    + pose proof (readService_other cache n Hn) as Ho.
      destruct (readService y h cache n) as [[l r] cache'] eqn:E.
      destruct Ho as (Hr & Hf & Hc).
      rewrite (runAction_read _ _ _ _ _ _ _ _ _ E). cbn [fst].
      rewrite factoryCalls_app, reads_app, Hr, Hf, <- Hc. simpl.
      destruct r as [e|v]; [apply (IHt e cache') | apply (IHv v cache')].
Qed.

End OneService.

Lemma bind_quiet {A B} (m : M A) (f : A -> M B) :
  Forall quiet (fst m) -> (forall a, Forall quiet (fst (f a))) ->
  Forall quiet (fst (bind m f)).
Proof.
  destruct m as [l [e|a]]; simpl; intros Hm Hf; [exact Hm|].
  specialize (Hf a). destruct (f a) as [l' r]. simpl in *.
  apply Forall_app; split; assumption.
Qed.

Lemma catch_quiet {A} (m : M A) (k : exn -> M A) :
  Forall quiet (fst m) -> (forall e, Forall quiet (fst (k e))) ->
  Forall quiet (fst (catch m k)).
Proof.
  destruct m as [l [e|a]]; simpl; intros Hm Hk; [|exact Hm].
  specialize (Hk e). destruct (k e) as [l' r]. simpl in *.
  apply Forall_app; split; assumption.
Qed.

Lemma liftE_quiet {A} (r : exn + A) : Forall quiet (fst (liftE r)).
Proof. constructor. Qed.

Lemma isRes_quiet l : Forall isRes l -> Forall quiet l.
Proof. apply List.Forall_impl. intros [] H; simpl in *; auto. Qed.

Lemma sendResults_quiet v : Forall quiet (fst (sendResults v)).
Proof. apply isRes_quiet, sendResults_isRes. Qed.

Lemma validateWith_quiet c schema request :
  Forall quiet (fst (validateWith c schema request)).
Proof.
  destruct schema as [s|]; [|constructor].
  unfold validateWith.
  apply bind_quiet; [apply liftE_quiet|]. intros raw.
  apply bind_quiet; [repeat constructor|]. intros _.
  apply bind_quiet; [apply liftE_quiet|]. intros v. constructor.
Qed.

Lemma getSchemataArgs_quiet request schemata :
  Forall quiet (fst (getSchemataArgs request schemata)).
Proof.
  unfold getSchemataArgs. apply catch_quiet.
  - repeat (apply bind_quiet; [apply validateWith_quiet|]; intros ?). constructor.
  - intros e. apply bind_quiet; [apply liftE_quiet|]. intros m. constructor.
Qed.

Lemma sendUnknownResponse_quiet v formatter :
  Forall quiet (fst (sendUnknownResponse v formatter)).
Proof.
  unfold sendUnknownResponse. apply bind_quiet; [|intros r; apply sendResults_quiet].
  destruct (isYxpResults v); [constructor|].
  apply bind_quiet; [repeat constructor|]. intros _.
  apply bind_quiet; [apply liftE_quiet|]. intros v'. constructor.
Qed.

Lemma sendOrRethrow_quiet e : Forall quiet (fst (sendOrRethrow e)).
Proof.
  destruct e as [v|n m]; simpl; [|constructor].
  destruct (isYxpResults v); [apply sendResults_quiet|constructor].
Qed.

(** The log of a request: the handler's own events, if it ran at all, between
    events that touch no service. *)
Lemma endpoint_log y action schemata formatter request response :
  let log := fst (endpoint y action schemata formatter request response) in
  Forall quiet log
  \/ exists pre sa post,
       log = pre ++ fst (handlerRun y action sa request response) ++ post
       /\ Forall quiet pre /\ Forall quiet post.
Proof.
  unfold endpoint, handlerRun.
  pose proof (getSchemataArgs_quiet request schemata) as Hq.
  destruct (getSchemataArgs request schemata) as [l1 [e|sa]]; simpl in *; [left; exact Hq|].
  destruct (isYxpResults sa).
  - left. pose proof (sendResults_quiet sa) as Hs.
    destruct (sendResults sa) as [l r]. simpl in *. apply Forall_app; split; assumption.
  - right. 
    destruct (runAction y _ ∅ _) as [l2 [e|v]] eqn:Er; simpl.
    + pose proof (sendOrRethrow_quiet e) as Hs.
      destruct (sendOrRethrow e) as [l3 r3]. simpl in *.
      exists (l1 ++ [EvAction]), sa, l3. rewrite Er. simpl.
      repeat split; [rewrite <- !app_assoc; reflexivity| |exact Hs].
      apply Forall_app; split; [exact Hq|repeat constructor].
    + pose proof (catch_quiet (sendUnknownResponse v (formatterOrBlank formatter))
                    sendOrRethrow (sendUnknownResponse_quiet _ _) sendOrRethrow_quiet) as Hs.
      assert (E : forall (l2 : list event) (m : M unit),
                 catch (let (l', r) := m in (EvAction :: l2 ++ l', r)) sendOrRethrow
                 = let (l', r) := catch m sendOrRethrow in (EvAction :: l2 ++ l', r)).
      { intros l m. destruct m as [l' [e|[]]]; simpl; [|reflexivity].
        destruct (sendOrRethrow e). rewrite <- app_assoc. reflexivity. }
      rewrite E. clear E.
      destruct (catch _ sendOrRethrow) as [l3 r3]. simpl in *.
      exists (l1 ++ [EvAction]), sa, l3. rewrite Er. simpl.
      repeat split; [rewrite <- !app_assoc; reflexivity| |exact Hs].
      apply Forall_app; split; [exact Hq|repeat constructor].
Qed.

(* ================================================================== *)
(** ** Output shapes *)
(* ================================================================== *)

Lemma declaredIn_name P fields k x :
  declaredIn P fields k x -> In k (map fst fields).
Proof.
  induction fields as [|[k' f] fields IH]; cbn [declaredIn map fst In]; [tauto|].
  intros [[-> _]|H]; [left; reflexivity|right; exact (IH H)].
Qed.

Lemma declaredIn_impl (P Q : Shape -> jsval -> Prop) fields k x x' :
  Forall (fun kf => P (snd kf) x -> Q (snd kf) x') fields ->
  declaredIn P fields k x -> declaredIn Q fields k x'.
Proof.
  induction 1 as [|[k' f] fields Hf _ IH]; cbn [declaredIn snd] in *; [tauto|].
  intros [[-> H]|H]; [left; split; [reflexivity|exact (Hf H)]|right; exact (IH H)].
Qed.

Lemma conforms_keys fields props :
  conforms (Object fields) (JObj props) ->
  forall k, In k (map fst props) -> In k (map fst fields).
Proof.
  cbn [conforms]. intros H k Hk. apply in_map_iff in Hk as ([k' x] & <- & Hin).
  rewrite List.Forall_forall in H. exact (declaredIn_name _ _ _ _ (H _ Hin)).
Qed.

Lemma conforms_undefined sh : conforms sh JUndefined.
Proof. destruct sh; exact I. Qed.

(** The default of a shape has declared fields only. *)
Lemma default_conforms sh : conforms sh (getDefault (schemaOf sh)).
Proof.
  induction sh as [s|fields IH] using Shape_induction; [exact I|].
  cbn [schemaOf getDefault Yup.object]. unfold Yup.objectDefault.
  destruct fields as [|kf fields]; [exact I|].
  remember (kf :: fields) as fs eqn:Efs. clear Efs kf fields.
  destruct (map _ fs) eqn:Em; [exact I|]. rewrite <- Em. clear Em.
  cbn [conforms]. rewrite map_map. cbn [fst snd].
  induction IH as [|[k f] fs Hf _ IHfs]; [constructor|].
  cbn [map fst snd]. constructor.
  - cbn [declaredIn fst snd]. left. split; [reflexivity|exact Hf].
  - eapply List.Forall_impl; [|exact IHfs]. intros [k' x] H. cbn [declaredIn]. right. exact H.
Qed.

Lemma castFields_conform fs props : forall out,
  Forall (fun kf => forall v v', cast (schemaOf (snd kf)) v = inr v' ->
                                  conforms (snd kf) v') fs ->
  Yup.castFields (map (fun kf => (fst kf, schemaOf (snd kf))) fs) props = inr out ->
  Forall (fun kx => declaredIn conforms fs (fst kx) (snd kx)) out.
Proof.
  induction fs as [|[k f] fs IH]; intros out Hfs; cbn [map Yup.castFields fst snd].
  - intros [= <-]. constructor.
  - inversion Hfs as [|? ? Hf Hrest]; subst. cbn [snd] in Hf.
    destruct (cast (schemaOf f) _) as [e|x] eqn:Ec; [discriminate|].
    destruct (Yup.castFields _ props) as [e|out'] eqn:Eo; [discriminate|].
    intros [= <-].
    assert (Htail : Forall (fun kx => declaredIn conforms ((k, f) :: fs) (fst kx) (snd kx)) out').
    { eapply List.Forall_impl; [|exact (IH out' Hrest eq_refl)].
      intros [k' x'] H. cbn [declaredIn]. right. exact H. }
    assert (Hhead : declaredIn conforms ((k, f) :: fs) k x).
    { cbn [declaredIn]. left. split; [reflexivity|exact (Hf _ _ Ec)]. }
    destruct x; try (constructor; [exact Hhead|exact Htail]). exact Htail.
Qed.

(** What an object shape casts a value to has declared fields only. *)
Lemma cast_conforms sh : forall v v',
  cast (schemaOf sh) v = inr v' -> conforms sh v'.
Proof.
  induction sh as [s|fields IH] using Shape_induction; intros v v'; [intros _; exact I|].
  cbn [schemaOf cast Yup.object]. unfold Yup.objectCast.
  destruct v as [| | | | | |props]; try discriminate.
  - intros [= <-]. exact (default_conforms (Object fields)).
  - destruct (Yup.castFields _ props) as [e|out] eqn:E; [discriminate|].
    intros [= <-]. cbn [conforms]. exact (castFields_conform fields props out IH E).
Qed.

Lemma cast_object_cases fields v v' :
  cast (schemaOf (Object fields)) v = inr v' ->
  v' = JUndefined \/ exists props, v' = JObj props.
Proof.
  cbn [schemaOf cast Yup.object]. unfold Yup.objectCast.
  destruct v as [| | | | | |props]; try discriminate.
  - intros [= <-]. unfold Yup.objectDefault. destruct (map _ fields); eauto.
  - destruct (Yup.castFields _ props); [discriminate|]. intros [= <-]. eauto.
Qed.

Lemma setProp_Forall (Q : string * jsval -> Prop) k v acc :
  Q (k, v) -> Forall Q acc -> Forall Q (JS.setProp k v acc).
Proof.
  intros Hq. induction 1 as [|[k0 v0] acc H0 Hacc IH]; cbn [JS.setProp].
  - constructor; [exact Hq|constructor].
  - destruct (String.eqb k k0) eqn:E.
    + apply String.eqb_eq in E. subst k0. constructor; [exact Hq|exact Hacc].
    + constructor; assumption.
Qed.

Lemma canonProps_Forall (Q : string * jsval -> Prop) l :
  Forall (fun kx => Q (fst kx, JSON.canon (snd kx))) l ->
  forall acc, Forall Q acc -> Forall Q (JSON.canonProps l acc).
Proof.
  induction 1 as [|[k x] l Hx _ IH]; intros acc Hacc; cbn [JSON.canonProps]; [exact Hacc|].
  cbn [fst snd] in Hx.
  assert (Hset : Forall Q (JSON.canonProps l (JS.setProp k (JSON.canon x) acc))).
  { apply IH, setProp_Forall; auto. }
  destruct x; try exact Hset. apply IH, Hacc.
Qed.

(** Decoding the text of a value with declared fields only gives a value
    with declared fields only. *)
Lemma canon_conforms sh : forall v, conforms sh v -> conforms sh (JSON.canon v).
Proof.
  induction sh as [s|fields IH] using Shape_induction; intros v; [intros _; exact I|].
  destruct v as [| |b|n|s|items|props]; try (intros _; exact I).
  rewrite JSONFacts.canon_object. cbn [conforms]. intros H.
  apply canonProps_Forall; [|constructor].
  eapply List.Forall_impl; [|exact H]. intros [k x] Hd. cbn [fst snd] in *.
  eapply declaredIn_impl; [|exact Hd].
  eapply List.Forall_impl; [|exact IH]. intros [k' f] Hf. cbn [snd] in *. apply Hf.
Qed.

(** The JSON text of a cast value decodes to an object with declared
    fields only. *)
Lemma cast_onlyDeclared fields v v' :
  cast (schemaOf (Object fields)) v = inr v' ->
  onlyDeclared fields (JSON_stringify v').
Proof.
  intros Hc. pose proof (cast_conforms (Object fields) v v' Hc) as Hconf.
  destruct (cast_object_cases fields v v' Hc) as [->|[props ->]]; [left; reflexivity|].
  right. unfold JSON_stringify.
  destruct (JSON.stringify (JObj props)) as [t|] eqn:E; [|discriminate].
  exists (string_of_list_ascii t), (JSON.canonProps props []).
  split; [reflexivity|].
  assert (Hd : conforms (Object fields) (JObj (JSON.canonProps props []))).
  { rewrite <- JSONFacts.canon_object. apply canon_conforms, Hconf. }
  split; [|split].
  - unfold JSON_parse, JSON.chars. rewrite list_ascii_of_string_of_list_ascii.
    rewrite (JSONFacts.parse_stringify _ _ E), JSONFacts.canon_object. reflexivity.
  - exact (conforms_keys fields _ Hd).
  - exact Hd.
Qed.

(* ================================================================== *)
(** ** The claims *)
(* ================================================================== *)

(** C1 as the spec states it fails: not every declared output shape
    declares fields.  A shape like [yup.mixed()] casts a value to itself,
    so an endpoint that declares it sends every field the handler returned;
    and so does a field of this kind inside an object shape, for what its
    value holds: under the shape [{user: mixed}] the [password] inside
    [user] is sent. *)
Lemma shape_without_fields_sends_every_field :
  (endpoint noServices (fun _ => Return leaky) Schemata.empty (Some mixed)
     (JObj []) anyResponse
   = ([EvAction; EvCast; EvRes (Status (JNum 200));
       EvRes (Send (JSON_stringify leaky))], inr tt)
   /\ exists s, JSON_stringify leaky = JStr s /\ JSON_parse s = Some leaky
                /\ JS.get leaky "secret" = JStr "secret value")
  /\ (endpoint noServices (fun _ => Return isMe) Schemata.empty
        (Some (schemaOf (Object [("user", Other mixed)]))) (JObj []) anyResponse
      = ([EvAction; EvCast; EvRes (Status (JNum 200));
          EvRes (Send (JSON_stringify (JObj [("user", JS.get isMe "user")])))],
         inr tt)
      /\ exists s,
           JSON_stringify (JObj [("user", JS.get isMe "user")]) = JStr s
           /\ JSON_parse s = Some (JObj [("user", JS.get isMe "user")])
           /\ JS.get (JS.get isMe "user") "password" = JStr "swordfish").
Proof.
  split; (split; [reflexivity|]); eexists; (split; [reflexivity|]);
    split; reflexivity.
Qed.

(** C1, amended.  An endpoint whose declared output shape is an object shape (its
    fields any schemas, object shapes among them), and whose handler returns
    a plain value, one that [isYxpResults] rejects: the value is cast
    through the shape.  Either the cast throws, and the returned value is
    not sent; or the response is status 200 with the JSON text of the cast
    value, and that text, decoded by [JSON.parse], is an object whose
    fields are all declared in the shape, at every level the shape
    describes by an object shape (or there is no body, when the cast gave
    [undefined]). *)
Theorem undeclared_fields_are_stripped
    y action schemata fields request response l1 sa l2 v :
  let formatter := schemaOf (Object fields) in
  validated request schemata l1 sa ->
  handlerRun y action sa request response = (l2, inr v) ->
  isYxpResults v = false ->
  match cast formatter v with
  | inr v' =>
      endpoint y action schemata (Some formatter) request response
      = (l1 ++ EvAction :: l2 ++
           [EvCast; EvRes (Status (JNum 200)); EvRes (Send (JSON_stringify v'))],
         inr tt)
      /\ onlyDeclared fields (JSON_stringify v')
  | inl e =>
      endpoint y action schemata (Some formatter) request response
      = (l1 ++ EvAction :: l2 ++ EvCast :: fst (sendOrRethrow e),
         snd (sendOrRethrow e))
  end.
Proof.
  intros formatter Hv Hr Hp. rewrite (endpoint_returned _ _ _ _ _ _ _ _ _ _ Hv Hr).
  rewrite sendUnknownResponse_plain by exact Hp. cbn [formatterOrBlank].
  destruct (cast formatter v) as [e|v'] eqn:Ec.
  - cbn [catch]. destruct (sendOrRethrow e). reflexivity.
  - split; [reflexivity|]. exact (cast_onlyDeclared fields v v' Ec).
Qed.

Lemma undeclared_fields_are_stripped_witness :
  endpoint noServices (fun _ => Return isMe) Schemata.empty
    (Some (schemaOf (Object IsMeResponse))) (JObj []) anyResponse
  = ([] ++ EvAction :: [] ++
       [EvCast; EvRes (Status (JNum 200)); EvRes (Send (JSON_stringify isMeSent))],
     inr tt)
  /\ onlyDeclared IsMeResponse (JSON_stringify isMeSent).
Proof.
  apply (undeclared_fields_are_stripped noServices (fun _ => Return isMe)
           Schemata.empty IsMeResponse (JObj []) anyResponse [] noArgs [] isMe).
  - split; reflexivity.
  - reflexivity.
  - reflexivity.
Defined.

(** C2.  The three input categories are validated in the order params,
    query, body.  When the first failing category fails with a
    [ValidationError] carrying [msg], the log of the request holds the
    validations up to that category and no later one, no handler
    invocation, and one response: status 400 with body [msg]. *)
Theorem first_failure_short_circuits
    y action schemata formatter rprops response msg :
  let request := JObj rprops in
  let raw c := JS.get request (categoryKey c) in
  let run := endpoint y action schemata formatter request response in
  (failsWith (Schemata.params schemata) (raw Params) msg ->
   run = ([EvValidate Params] ++ rejected msg, inr tt))
  /\ (passes (Schemata.params schemata) (raw Params) ->
      failsWith (Schemata.query schemata) (raw Query) msg ->
      run = (attempted (Schemata.params schemata) Params
             ++ [EvValidate Query] ++ rejected msg, inr tt))
  /\ (passes (Schemata.params schemata) (raw Params) ->
      passes (Schemata.query schemata) (raw Query) ->
      failsWith (Schemata.body schemata) (raw Body) msg ->
      run = (attempted (Schemata.params schemata) Params
             ++ attempted (Schemata.query schemata) Query
             ++ [EvValidate Body] ++ rejected msg, inr tt)).
Proof.
  intros request raw run. subst request raw run. unfold endpoint, getSchemataArgs.
  repeat split.
  - intros Hp. rewrite (validateWith_fails _ _ _ _ Hp). reflexivity.
  - intros Hp Hq. destruct (validateWith_passes _ _ _ Hp) as [p ->].
    rewrite (validateWith_fails _ _ _ _ Hq). simpl. rewrite !app_nil_r.
    rewrite <- !app_assoc. reflexivity.
  - intros Hp Hq Hb. destruct (validateWith_passes _ _ _ Hp) as [p ->].
    destruct (validateWith_passes _ _ _ Hq) as [q ->].
    rewrite (validateWith_fails _ _ _ _ Hb). simpl. rewrite !app_nil_r.
    rewrite <- !app_assoc. reflexivity.
Qed.

Lemma first_failure_short_circuits_witness :
  endpoint noServices (fun _ => Return JUndefined)
    {| Schemata.params := None;
       Schemata.query := Some IdRequired;
       Schemata.body := Some IdRequired |}
    None paramsReq anyResponse
  = ([] ++ [EvValidate Query] ++ rejected "id is a required field", inr tt).
Proof.
  apply (proj1 (proj2 (first_failure_short_circuits noServices
           (fun _ => Return JUndefined)
           {| Schemata.params := None;
              Schemata.query := Some IdRequired;
              Schemata.body := Some IdRequired |}
           None [("params", JObj [("id", JStr "3")])] anyResponse
           "id is a required field"))).
  - exact I.
  - exists IdRequired. split; reflexivity.
Defined.

(** C3 as the spec states it fails: lodash's [memoize] stores a result only
    when the factory returns, so a factory that throws is invoked again by
    the next read of a handler that caught the exception.  Here the
    property is read twice and the factory runs twice. *)
Lemma throwing_factory_runs_again :
  let log := fst (endpoint guarded (retries "user") Schemata.empty None
                    (JObj []) anyResponse) in
  reads "user" log = 2 /\ factoryCalls "user" log = 2.
Proof. split; vm_compute; reflexivity. Qed.

(** C3, amended.  Within one request a service's factory is invoked only by
    a read of its property (never, if the handler does not read it), and
    exactly once if the handler reads the property one or more times and
    the factory returns a value; a read that finds the value cached
    returns it without a factory call, a read removes nothing from the
    cache, a factory call that returns stores its value there, and one
    that throws leaves the cache as it was. *)
Theorem factory_runs_once_if_it_returns
    y action schemata formatter request response name factory :
  serviceFactoryArgs y !! name = Some factory ->
  let h := {| req := request; res := response |} in
  let log := fst (endpoint y action schemata formatter request response) in
  factoryCalls name log <= reads name log
  /\ (forall v, factory h = inr v -> 1 <= reads name log -> factoryCalls name log = 1)
  /\ (forall cache v, cache !! name = Some v ->
        readService y h cache name = (([EvGet name], inr v), cache))
  /\ (forall cache n v, cache !! n = Some v ->
        snd (readService y h cache name) !! n = Some v)
  /\ (forall cache v, cache !! name = None -> factory h = inr v ->
        readService y h cache name
        = (([EvGet name; EvFactory name], inr v), <[name := v]> cache))
  /\ (forall cache e, cache !! name = None -> factory h = inl e ->
        readService y h cache name
        = (([EvGet name; EvFactory name], inl e), cache)).
Proof.
  intros Hd h log.
  assert (Hcount : factoryCalls name log <= reads name log
     /\ (forall v, factory h = inr v -> 1 <= reads name log -> factoryCalls name log = 1)).
  { subst log.
    destruct (endpoint_log y action schemata formatter request response)
      as [Hq|(pre & sa & post & -> & Hpre & Hpost)].
    - destruct (quiet_counts name _ Hq) as [-> ->]. split; lia.
    - destruct (quiet_counts name _ Hpre) as [Rpre Fpre].
      destruct (quiet_counts name _ Hpost) as [Rpost Fpost].
      rewrite !factoryCalls_app, !reads_app, Rpre, Fpre, Rpost, Fpost.
      unfold handlerRun. fold h.
      pose proof (runAction_calls_le_reads y h name
                    (action (addServices sa h)) ∅) as Hle.
      split; [lia|]. intros v Hf Hr.
      destruct (runAction_once y h name factory v Hd Hf
                  (action (addServices sa h)) ∅) as [_ H1].
      rewrite Nat.add_0_r in *. simpl in *. apply H1; [apply lookup_empty|lia]. }
  destruct Hcount as [H0 H1]. repeat split; [exact H0|exact H1| | | |].
  - intros cache v Hc. eapply readService_cached; eauto.
  - intros cache n v Hc.
    destruct (readService_cases y h cache name)
      as [[_ ->]|[(v' & _ & ->)|[(v' & Hn & ->)|(e & _ & ->)]]]; simpl; auto.
    rewrite lookup_insert_ne; [exact Hc|]. intros ->. congruence.
  - intros cache v Hc Hf. eapply readService_computed; eauto.
  - intros cache e Hc He. eapply readService_threw; eauto.
Qed.

Lemma factory_runs_once_if_it_returns_witness :
  let log := fst (endpoint counting (readsTwice "baz") Schemata.empty None
                    (JObj []) anyResponse) in
  reads "baz" log = 2 /\ factoryCalls "baz" log = 1.
Proof.
  split; [vm_compute; reflexivity|].
  apply (proj1 (proj2 (factory_runs_once_if_it_returns counting (readsTwice "baz")
           Schemata.empty None (JObj []) anyResponse "baz"
           (fun _ => inr (JNum 5)) eq_refl)) (JNum 5)).
  - reflexivity.
  - vm_compute. lia.
Defined.



(** C5 as the spec states it fails: with no output shape declared the
    handler's plain value is not passed through.  It is cast through
    [BlankReturn], the empty object shape, which strips every field: the
    body is the text of the empty object, neither the value nor its JSON
    text. *)
Lemma no_shape_object_is_stripped :
  let log := fst (endpoint noServices (fun _ => Return leaky) Schemata.empty None
                    (JObj []) anyResponse) in
  log = [EvAction; EvCast; EvRes (Status (JNum 200)); EvRes (Send (JStr "{}"))]
  /\ ~ In (EvRes (Send (JSON_stringify leaky))) log
  /\ ~ In (EvRes (Send leaky)) log.
Proof.
  split; [reflexivity|]. split; intros H; vm_compute in H;
    repeat (destruct H as [H|H]; [discriminate H|]); exact H.
Qed.

(** C5, amended.  An endpoint declared without an output shape behaves as
    one declared with [BlankReturn], the object shape with no fields: a
    plain object returned by the handler is cast through it with unknown
    fields stripped, and sent as a Success with status 200 whose body is
    the text of the empty object. *)
Theorem no_shape_casts_through_BlankReturn y action schemata request response :
  endpoint y action schemata None request response
  = endpoint y action schemata (Some BlankReturn) request response
  /\ forall l1 sa l2 props,
      validated request schemata l1 sa ->
      handlerRun y action sa request response = (l2, inr (JObj props)) ->
      isYxpResults (JObj props) = false ->
      endpoint y action schemata None request response
      = (l1 ++ EvAction :: l2 ++
           [EvCast; EvRes (Status (JNum 200)); EvRes (Send (JStr "{}"))], inr tt).
Proof.
  split; [reflexivity|]. intros l1 sa l2 props Hv Hr Hp.
  rewrite (endpoint_returned _ _ _ _ _ _ _ _ _ _ Hv Hr).
  rewrite sendUnknownResponse_plain by exact Hp. reflexivity.
Qed.

Lemma no_shape_casts_through_BlankReturn_witness :
  endpoint noServices (fun _ => Return leaky) Schemata.empty None (JObj []) anyResponse
  = ([] ++ EvAction :: [] ++
       [EvCast; EvRes (Status (JNum 200)); EvRes (Send (JStr "{}"))], inr tt).
Proof.
  apply (proj2 (no_shape_casts_through_BlankReturn noServices (fun _ => Return leaky)
                  Schemata.empty (JObj []) anyResponse)
           [] noArgs [] [("id", JNum 1); ("secret", JStr "secret value")]).
  - split; reflexivity.
  - reflexivity.
  - reflexivity.
Defined.

(** C6.  The code at the failing input: a Success that declares the MIME
    type text/plain is sent with a status and a body only, and no call on
    the response carries the MIME type.  In general the calls [sendResults]
    makes for a Success built by [text] do not depend on the MIME type it
    declares. *)
Theorem mimeType_is_never_sent :
  sendResults (text (JStr "plain words") (JStr "text/plain") JUndefined)
  = ([EvRes (Status (JNum 200)); EvRes (Send (JStr "plain words"))], inr tt)
  /\ forall results mimeType mimeType' options,
       sendResults (text results mimeType options)
       = sendResults (text results mimeType' options).
Proof.
  split; [reflexivity|]. intros results m m' options.
  unfold text, yxpSuccess. rewrite !sendResults_object. cbn.
  unfold sentSuccess. cbn [JS.get].
  rewrite (spread_lookup "cookies" m m'), (spread_lookup "headers" m m')
    by reflexivity.
  reflexivity.
Qed.

(** C7.  A handler that returns a structured Success: whatever output shape
    the endpoint declares, the shape's [cast] is not called, and the
    response is the Success's cookies, headers and status and then its
    body, exactly as given. *)
Theorem explicit_success_bypasses_casting
    y action schemata formatter request response l1 sa l2 body statusCode opts :
  validated request schemata l1 sa ->
  handlerRun y action sa request response
    = (l2, inr (yxpSuccess body statusCode (JObj opts))) ->
  endpoint y action schemata (Some formatter) request response =
  (l1 ++ EvAction :: l2 ++
     callEvents Cookie (JS.or (JS.lookupProp "cookies" opts) (JObj []))
     ++ callEvents Header (JS.or (JS.lookupProp "headers" opts) (JObj []))
     ++ [EvRes (Status (JS.dflt statusCode OK)); EvRes (Send body)],
   inr tt).
Proof.
  intros Hv Hr. rewrite (endpoint_returned _ _ _ _ _ _ _ _ _ _ Hv Hr).
  rewrite sendUnknownResponse_results by reflexivity.
  rewrite catch_sendResults, sendResults_yxpSuccess. reflexivity.
Qed.

Lemma explicit_success_bypasses_casting_witness :
  endpoint noServices (fun _ => Return (html (JStr "<b>hi</b>") JUndefined))
    Schemata.empty (Some IdRequired) (JObj []) anyResponse
  = ([] ++ EvAction :: [] ++ [] ++ []
        ++ [EvRes (Status (JNum 200)); EvRes (Send (JStr "<b>hi</b>"))],
     inr tt).
Proof.
  apply (explicit_success_bypasses_casting noServices
           (fun _ => Return (html (JStr "<b>hi</b>") JUndefined))
           Schemata.empty IdRequired (JObj []) anyResponse [] noArgs []
           (JStr "<b>hi</b>") OK [("mimeType", JStr "text/html")]).
  - split; reflexivity.
  - reflexivity.
Defined.

(** C8.  An endpoint declared with no output shape whose handler returns
    nothing: the response is status 200, and [send] is called with
    [undefined], which writes no body. *)
Theorem no_shape_nothing_returned
    y action schemata request response l1 sa l2 :
  validated request schemata l1 sa ->
  handlerRun y action sa request response = (l2, inr JUndefined) ->
  endpoint y action schemata None request response =
  (l1 ++ EvAction :: l2 ++
     [EvCast; EvRes (Status (JNum 200)); EvRes (Send JUndefined)], inr tt).
Proof.
  intros Hv Hr. rewrite (endpoint_returned _ _ _ _ _ _ _ _ _ _ Hv Hr).
  reflexivity.
Qed.

Lemma no_shape_nothing_returned_witness :
  endpoint counting (fun _ => Read "baz" (fun _ => Return JUndefined) Throw)
    Schemata.empty None (JObj []) anyResponse
  = ([] ++ EvAction :: [EvGet "baz"; EvFactory "baz"] ++
       [EvCast; EvRes (Status (JNum 200)); EvRes (Send JUndefined)], inr tt).
Proof.
  apply (no_shape_nothing_returned counting
           (fun _ => Read "baz" (fun _ => Return JUndefined) Throw)
           Schemata.empty (JObj []) anyResponse [] noArgs
           [EvGet "baz"; EvFactory "baz"]).
  - split; reflexivity.
  - reflexivity.
Defined.

(** C9 as the spec states it fails: the status is not written first.  For
    a Success with one cookie the cookie is set before the status. *)
Lemma status_is_not_written_first :
  fst (sendResults withCookie)
  = [EvRes (Cookie "sid" (JStr "1")); EvRes (Status (JNum 200)); EvRes (Send (JStr "hi"))]
  /\ ~ statusFirst (fst (sendResults withCookie)).
Proof.
  split; [reflexivity|]. intros (code & rest & H). discriminate H.
Qed.

(** C9, amended.  When a Result is sent, the calls on the response are,
    in this order: for a Success its cookies, then its headers; then the
    status code; then the body, which is the last call.  For an Error they
    are the status code and then the body. *)
Theorem sendResults_order :
  (forall body statusCode opts,
     sendResults (yxpSuccess body statusCode (JObj opts)) =
     (callEvents Cookie (JS.or (JS.lookupProp "cookies" opts) (JObj []))
      ++ callEvents Header (JS.or (JS.lookupProp "headers" opts) (JObj []))
      ++ [EvRes (Status (JS.dflt statusCode OK)); EvRes (Send body)], inr tt))
  /\ (forall statusCode body,
        sendResults (yxpError statusCode body) =
        ([EvRes (Status statusCode); EvRes (Send (JS.dflt body (JStr EmptyString)))],
         inr tt)).
Proof.
  split; intros.
  - apply sendResults_yxpSuccess.
  - reflexivity.
Qed.



(* ================================================================== *)
(** ** Further properties of the program *)
(* ================================================================== *)

(* ================================================================== *)
(** ** The order of the library's steps *)
(* ================================================================== *)

Lemma ownSteps_app l l' : ownSteps (l ++ l') = ownSteps l ++ ownSteps l'.
Proof. apply List.filter_app. Qed.

Lemma ownSteps_isRes l : Forall isRes l -> ownSteps l = [].
Proof.
  induction 1 as [|ev l Hev _ IH]; [reflexivity|].
  destruct ev; try destruct Hev. exact IH.
Qed.

Lemma ownSteps_isService l : Forall isService l -> ownSteps l = [].
Proof.
  induction 1 as [|ev l Hev _ IH]; [reflexivity|].
  destruct ev; try destruct Hev; exact IH.
Qed.

Lemma readService_services y h cache name :
  Forall isService (fst (fst (readService y h cache name))).
Proof.
  destruct (readService_cases y h cache name)
    as [[_ ->]|[(v & _ & ->)|[(v & _ & ->)|(e & _ & ->)]]]; repeat constructor.
Qed.

Lemma runAction_services y h a : forall cache,
  Forall isService (fst (runAction y h cache a)).
Proof.
  induction a as [v|e|n onValue IHv onThrow IHt]; intros cache;
    [constructor | constructor |].
  pose proof (readService_services y h cache n) as Hs.
  destruct (readService y h cache n) as [[l r] cache'] eqn:E.
  rewrite (runAction_read _ _ _ _ _ _ _ _ _ E). cbn [fst] in *.
  apply Forall_app; split; [exact Hs|]. destruct r; auto.
Qed.

Lemma validateWith_validation c schema request :
  exists took_place, fst (validateWith c schema request) = validation c took_place.
Proof.
  destruct schema as [s|]; [|exists false; reflexivity]. unfold validateWith.
  destruct (JS.member request (categoryKey c)) as [e|raw]; [exists false; reflexivity|].
  exists true. cbn. destruct (validate s raw); reflexivity.
Qed.

Lemma getSchemataArgs_validations request schemata :
  exists p q b,
    fst (getSchemataArgs request schemata)
    = validation Params p ++ validation Query q ++ validation Body b.
Proof.
  unfold getSchemataArgs.
  destruct (validateWith_validation Params (Schemata.params schemata) request) as [p Hp].
  destruct (validateWith_validation Query (Schemata.query schemata) request) as [q Hq].
  destruct (validateWith_validation Body (Schemata.body schemata) request) as [b Hb].
  destruct (validateWith Params _ request) as [lp [e|vp]]; cbn [bind catch fst] in *.
  - exists p, false, false. subst lp. destruct (message e); cbn [liftE bind ret fst];
      rewrite ?app_nil_r; reflexivity.
  - destruct (validateWith Query _ request) as [lq [e|vq]]; cbn [bind catch fst] in *.
    + exists p, q, false. subst lp lq. destruct (message e); cbn [liftE bind ret fst];
        rewrite ?app_nil_r; reflexivity.
    + destruct (validateWith Body _ request) as [lb [e|vb]]; cbn [bind catch fst ret] in *.
      * exists p, q, b. subst lp lq lb. destruct (message e); cbn [liftE bind ret fst];
          rewrite ?app_nil_r; reflexivity.
      * exists p, q, b. subst lp lq lb. rewrite ?app_nil_r. reflexivity.
Qed.

Lemma sendOrRethrow_isRes e : Forall isRes (fst (sendOrRethrow e)).
Proof.
  destruct e as [v|n m]; cbn [sendOrRethrow isYxpResultsExn]; [|constructor].
  destruct (isYxpResults v); [apply sendResults_isRes|constructor].
Qed.

(** The formatter's part of a request: at most one cast. *)
Lemma formatting_steps v formatter :
  let steps := ownSteps (fst (catch (sendUnknownResponse v formatter) sendOrRethrow)) in
  steps = [] \/ steps = [EvCast].
Proof.
  intros steps. subst steps. destruct (isYxpResults v) eqn:E.
  - rewrite sendUnknownResponse_results by exact E. rewrite catch_sendResults.
    left. apply ownSteps_isRes, sendResults_isRes.
  - rewrite sendUnknownResponse_plain by exact E. right.
    destruct (cast formatter v) as [e|v']; cbn [catch].
    + pose proof (sendOrRethrow_isRes e) as He.
      destruct (sendOrRethrow e) as [l r]. cbn [fst] in *.
      change ([EvCast] ++ l) with (EvCast :: l).
      unfold ownSteps. cbn [List.filter ownStep]. f_equal. exact (ownSteps_isRes l He).
    + rewrite sendResults_json. reflexivity.
Qed.

(** X2.  In every request the library's own steps come in one order: each
    of the three categories is validated at most once, params before query
    before body; then the handler is invoked, at most once; then the value
    it returned is cast, at most once.  So nothing is validated after the
    handler was invoked, the handler is never invoked twice, and nothing is
    cast before the handler returned.  The statement is about these
    steps alone, not about the calls on the response or the reads of
    services that lie between them. *)
Theorem request_runs_in_phases y action schemata formatter request response :
  stepsInOrder (ownSteps (fst (endpoint y action schemata formatter request response))).
Proof.
  unfold endpoint.
  destruct (getSchemataArgs_validations request schemata) as (p & q & b & H1).
  exists p, q, b. cbv zeta.
  assert (Hvs : ownSteps (validation Params p ++ validation Query q ++ validation Body b)
                = validation Params p ++ validation Query q ++ validation Body b)
    by (destruct p, q, b; reflexivity).
  revert H1 Hvs.
  generalize (validation Params p ++ validation Query q ++ validation Body b).
  intros V H1 Hvs.
  destruct (getSchemataArgs request schemata) as [l1 [e|sa]]; cbn [bind fst] in *;
    subst l1.
  - left. exact Hvs.
  - destruct (isYxpResults sa).
    + pose proof (sendResults_isRes sa) as Hs.
      destruct (sendResults sa) as [l r]. cbn [fst] in *.
      left. rewrite ownSteps_app, Hvs, (ownSteps_isRes l Hs), app_nil_r. reflexivity.
    + set (h := {| req := request; res := response |}).
      pose proof (runAction_services y h (action (addServices sa h)) ∅) as H2.
      destruct (runAction y h ∅ _) as [l2 [e|v]]; cbn [bind emit catch fst app] in *.
      * pose proof (sendOrRethrow_isRes e) as He.
        destruct (sendOrRethrow e) as [l3 r3]. cbn [fst] in *.
        right; left. rewrite ownSteps_app, Hvs. f_equal.
        unfold ownSteps. cbn [List.filter ownStep]. f_equal.
        fold (ownSteps (l2 ++ l3)).
        rewrite ownSteps_app, (ownSteps_isService l2 H2), (ownSteps_isRes l3 He).
        reflexivity.
      * assert (E : forall l3, ownSteps (V ++ EvAction :: l2 ++ l3)
                               = V ++ EvAction :: ownSteps l3).
        { intros l3. rewrite ownSteps_app, Hvs. f_equal.
          unfold ownSteps at 1. cbn [List.filter ownStep]. f_equal.
          fold (ownSteps (l2 ++ l3)).
          rewrite ownSteps_app, (ownSteps_isService l2 H2). reflexivity. }
        pose proof (formatting_steps v (formatterOrBlank formatter)) as Hf.
        cbv zeta in Hf.
        destruct (sendUnknownResponse v (formatterOrBlank formatter)) as [l3 [e|u]];
          cbn [catch fst] in *.
        -- destruct (sendOrRethrow e) as [l4 r4]. cbn [fst app] in *.
           rewrite <- (app_assoc l2 l3 l4), E.
           destruct Hf as [-> | ->]; [right; left|right; right]; reflexivity.
        -- rewrite E.
           destruct Hf as [-> | ->]; [right; left|right; right]; reflexivity.
Qed.

(* ================================================================== *)
(** ** What the handler receives, and what a rejection sends *)
(* ================================================================== *)

Lemma validateWith_delivered c schema rprops :
  passes schema (JS.lookupProp (categoryKey c) rprops) ->
  validateWith c schema (JObj rprops)
  = (attempted schema c, inr (delivered schema (JS.lookupProp (categoryKey c) rprops))).
Proof.
  destruct schema as [s|]; simpl.
  - intros [v Hv]. unfold validateWith. simpl. rewrite Hv. reflexivity.
  - intros _. reflexivity.
Qed.

Lemma validateWith_rejects c schema rprops e :
  rejectsWith schema (JS.lookupProp (categoryKey c) rprops) e ->
  validateWith c schema (JObj rprops) = ([EvValidate c], inl e).
Proof.
  intros (s & -> & Hs). unfold validateWith. simpl. rewrite Hs. reflexivity.
Qed.

Lemma validated_delivered rprops schemata :
  let raw c := JS.lookupProp (categoryKey c) rprops in
  passes (Schemata.params schemata) (raw Params) ->
  passes (Schemata.query schemata) (raw Query) ->
  passes (Schemata.body schemata) (raw Body) ->
  validated (JObj rprops) schemata
    (attempted (Schemata.params schemata) Params
     ++ attempted (Schemata.query schemata) Query
     ++ attempted (Schemata.body schemata) Body)
    (JObj [("params", delivered (Schemata.params schemata) (raw Params));
           ("query", delivered (Schemata.query schemata) (raw Query));
           ("body", delivered (Schemata.body schemata) (raw Body))]).
Proof.
  intros raw Hp Hq Hb. split; [|reflexivity]. unfold getSchemataArgs.
  rewrite (validateWith_delivered _ _ _ Hp), (validateWith_delivered _ _ _ Hq),
    (validateWith_delivered _ _ _ Hb).
  cbn [bind catch ret]. rewrite ?app_nil_r, <- ?app_assoc. reflexivity.
Qed.

(** X3.  When the three categories pass, the handler is invoked once, after
    the validations, on the values the schemas resolved to and not on the
    raw input of the request: a category without schema, or whose schema
    gave a falsy value, arrives as an empty object.  What the handler
    returns goes to the formatter, what it throws to the [catch] clause.
    [addServices] defines every service as a property of the same
    argument, where a service named like one of the five would replace it:
    the statement is for the applications that have no such service. *)
Theorem handler_receives_validated_values
    y action schemata formatter rprops response :
  let request := JObj rprops in
  let raw c := JS.get request (categoryKey c) in
  let h := {| req := request; res := response |} in
  let args :=
    {| EndpointArgs.params := delivered (Schemata.params schemata) (raw Params);
       EndpointArgs.query := delivered (Schemata.query schemata) (raw Query);
       EndpointArgs.body := delivered (Schemata.body schemata) (raw Body);
       EndpointArgs.httpArgs := h |} in
  Forall (fun name => serviceFactoryArgs y !! name = None)
    ["params"; "query"; "body"; "req"; "res"] ->
  passes (Schemata.params schemata) (raw Params) ->
  passes (Schemata.query schemata) (raw Query) ->
  passes (Schemata.body schemata) (raw Body) ->
  endpoint y action schemata formatter request response
  = let (l2, r) := runAction y h ∅ (action args) in
    let (l3, r') :=
      match r with
      | inr v => catch (sendUnknownResponse v (formatterOrBlank formatter)) sendOrRethrow
      | inl e => sendOrRethrow e
      end in
    ((attempted (Schemata.params schemata) Params
      ++ attempted (Schemata.query schemata) Query
      ++ attempted (Schemata.body schemata) Body)
     ++ EvAction :: l2 ++ l3, r').
Proof.
  intros request raw h args _ Hp Hq Hb. subst request raw.
  pose proof (validated_delivered rprops schemata Hp Hq Hb) as Hv.
  destruct (runAction y h ∅ (action args)) as [l2 [e|v]] eqn:Hr.
  - rewrite (endpoint_threw _ _ _ formatter _ _ _ _ l2 e Hv); [reflexivity|exact Hr].
  - rewrite (endpoint_returned _ _ _ formatter _ _ _ _ l2 v Hv); [reflexivity|exact Hr].
Qed.

Lemma handler_receives_validated_values_witness :
  endpoint noServices (fun args => Return (EndpointArgs.params args))
    {| Schemata.params := Some IdRequired; Schemata.query := None; Schemata.body := None |}
    (Some IdRequired) paramsReq anyResponse
  = ([EvValidate Params; EvAction; EvCast; EvRes (Status (JNum 200));
      EvRes (Send (JSON_stringify (JObj [("id", JNum 3)])))], inr tt).
Proof.
  apply (handler_receives_validated_values noServices
           (fun args => Return (EndpointArgs.params args))
           {| Schemata.params := Some IdRequired; Schemata.query := None;
              Schemata.body := None |}
           (Some IdRequired) [("params", JObj [("id", JStr "3")])] anyResponse).
  - repeat constructor.
  - eexists. reflexivity.
  - exact I.
  - exact I.
Defined.

(** X4.  Whatever the first failing validation rejects with, a
    [ValidationError] or not, the later categories are not validated and the
    handler is not invoked.  When the rejection has a [message], the
    response is status 400 with the message as body, the empty string for a
    message that is [undefined]; when it is [null] or [undefined], reading
    the message throws: no response is sent and the promise rejects. *)
Theorem any_rejection_is_a_bad_request
    y action schemata formatter rprops response c e :
  let request := JObj rprops in
  let raw c := JS.get request (categoryKey c) in
  let seen :=
    flat_map (fun c' => attempted (schemaFor schemata c') c') (earlier c)
    ++ [EvValidate c] in
  Forall (fun c' => passes (schemaFor schemata c') (raw c')) (earlier c) ->
  rejectsWith (schemaFor schemata c) (raw c) e ->
  endpoint y action schemata formatter request response
  = match message e with
    | inr m =>
        (seen ++ [EvRes (Status (JNum 400));
                  EvRes (Send (JS.dflt m (JStr EmptyString)))], inr tt)
    | inl thrown => (seen, inl thrown)
    end.
Proof.
  intros request raw seen Hbefore He. subst request raw seen.
  unfold endpoint, getSchemataArgs.
  destruct c; unfold schemaFor, earlier in *; cbn [flat_map].
  - rewrite (validateWith_rejects _ _ _ _ He). cbn [bind catch liftE].
    destruct (message e) as [t|m]; reflexivity.
  - inversion Hbefore as [|? ? Hp _]; subst.
    rewrite (validateWith_delivered _ _ _ Hp), (validateWith_rejects _ _ _ _ He).
    cbn [bind catch liftE]. rewrite !app_nil_r.
    destruct (message e) as [t|m]; cbn; rewrite ?app_nil_r, <- ?app_assoc; reflexivity.
  - inversion Hbefore as [|? ? Hp Hrest]; subst.
    inversion Hrest as [|? ? Hq _]; subst.
    rewrite (validateWith_delivered _ _ _ Hp), (validateWith_delivered _ _ _ Hq),
      (validateWith_rejects _ _ _ _ He).
    cbn [bind catch liftE]. rewrite !app_nil_r.
    destruct (message e) as [t|m]; cbn; rewrite ?app_nil_r, <- ?app_assoc; reflexivity.
Qed.

Lemma any_rejection_is_a_bad_request_witness :
  endpoint noServices (fun _ => Return JUndefined)
    {| Schemata.params := None;
       Schemata.query := Some (rejecting (Thrown (JObj [("code", JNum 7)])));
       Schemata.body := Some IdRequired |}
    None paramsReq anyResponse
  = ([EvValidate Query; EvRes (Status (JNum 400)); EvRes (Send (JStr EmptyString))],
     inr tt).
Proof.
  apply (any_rejection_is_a_bad_request noServices (fun _ => Return JUndefined)
           {| Schemata.params := None;
              Schemata.query := Some (rejecting (Thrown (JObj [("code", JNum 7)])));
              Schemata.body := Some IdRequired |}
           None [("params", JObj [("id", JStr "3")])] anyResponse Query
           (Thrown (JObj [("code", JNum 7)]))).
  - repeat constructor.
  - eexists. split; reflexivity.
Defined.

(* ================================================================== *)
(** ** The Results [text], [html] and [json] build *)
(* ================================================================== *)

Lemma lookupProp_absent k props :
  existsb (String.eqb k) (map fst props) = false -> JS.lookupProp k props = JUndefined.
Proof.
  induction props as [|[k0 v0] props IH]; cbn [map fst existsb JS.lookupProp];
    [reflexivity|].
  destruct (String.eqb k k0); [discriminate|exact IH].
Qed.

Lemma fold_setProp_lookup k entries : forall init,
  distinct (map fst entries) = true ->
  JS.lookupProp k (fold_left (fun acc kv => JS.setProp (fst kv) (snd kv) acc) entries init)
  = if existsb (String.eqb k) (map fst entries) then JS.lookupProp k entries
    else JS.lookupProp k init.
Proof.
  induction entries as [|[k0 v0] entries IH]; intros init Hd;
    cbn [fold_left map fst snd existsb JS.lookupProp distinct] in *; [reflexivity|].
  apply andb_true_iff in Hd as [Hk Hd]. apply negb_true_iff in Hk.
  rewrite (IH _ Hd), lookupProp_setProp.
  destruct (String.eqb k k0) eqn:E; cbn [orb]; [|reflexivity].
  apply String.eqb_eq in E. subst k0. rewrite Hk. reflexivity.
Qed.

Lemma spread_get k init options :
  isOptions options = true ->
  JS.lookupProp k (JS.spread init (JS.dflt options (JObj [])))
  = if hasOwn options k then JS.get options k else JS.lookupProp k init.
Proof.
  destruct options as [| |b|n|s|items|props]; try discriminate; intros Hd.
  - reflexivity.
  - exact (fold_setProp_lookup k props init Hd).
Qed.

Lemma spread_get_other k m options :
  isOptions options = true -> String.eqb k "mimeType" = false ->
  JS.lookupProp k (JS.spread [("mimeType", m)] (JS.dflt options (JObj [])))
  = JS.get options k.
Proof.
  intros Ho Hk. rewrite (spread_get _ _ _ Ho). cbn [JS.lookupProp]. rewrite Hk.
  destruct (hasOwn options k) eqn:E; [reflexivity|].
  destruct options as [| |b|n|s|items|props]; try discriminate; [reflexivity|].
  symmetry. exact (lookupProp_absent k props E).
Qed.

Lemma sendResults_text results mimeType options :
  isOptions options = true ->
  sendResults (text results mimeType options) = (sentSuccess options OK results, inr tt).
Proof.
  intros Ho. unfold text. rewrite sendResults_yxpSuccess. unfold sentSuccess.
  cbn [JS.get JS.dflt OK].
  rewrite !(spread_get_other _ _ _ Ho) by reflexivity. reflexivity.
Qed.

(** X5.  A Success built by [text], [html] or [json] from options is sent
    with the cookies and the headers of these options, status 200 and the
    given body, for [json] the JSON text of the given value; sending it
    does not throw. *)
Theorem built_success_sends_its_options results mimeType options :
  isOptions options = true ->
  sendResults (text results mimeType options) = (sentSuccess options OK results, inr tt)
  /\ sendResults (html results options) = (sentSuccess options OK results, inr tt)
  /\ sendResults (json results options)
     = (sentSuccess options OK (JSON_stringify results), inr tt).
Proof.
  intros Ho. unfold html, json. repeat split; apply sendResults_text; exact Ho.
Qed.

Lemma built_success_sends_its_options_witness :
  sendResults (json (JObj [("id", JNum 1)])
                 (JObj [("cookies", JObj [("sid", JStr "1")]);
                        ("headers", JObj [("ETag", JStr "v1")])]))
  = ([EvRes (Cookie "sid" (JStr "1")); EvRes (Header "ETag" (JStr "v1"));
      EvRes (Status (JNum 200));
      EvRes (Send (JSON_stringify (JObj [("id", JNum 1)])))], inr tt).
Proof.
  exact (proj2 (proj2 (built_success_sends_its_options (JObj [("id", JNum 1)]) JUndefined
           (JObj [("cookies", JObj [("sid", JStr "1")]);
                  ("headers", JObj [("ETag", JStr "v1")])]) eq_refl))).
Defined.

(** X6.  A [mimeType] among the options replaces the MIME type of the
    call: the one [text] is given, "text/html" for [html] and
    "application/json" for [json] are stored only when the options have no
    [mimeType] of their own. *)
Theorem options_mimeType_replaces_the_argument results mimeType options :
  isOptions options = true ->
  let stored r := JS.get (JS.get r "options") "mimeType" in
  let chosen m := if hasOwn options "mimeType" then JS.get options "mimeType" else m in
  stored (text results mimeType options) = chosen mimeType
  /\ stored (html results options) = chosen (JStr "text/html")
  /\ stored (json results options) = chosen (JStr "application/json").
Proof.
  intros Ho stored chosen. subst stored chosen. unfold html, json, text, yxpSuccess.
  cbn [JS.get JS.lookupProp String.eqb Ascii.eqb Bool.eqb JS.dflt].
  repeat split.
  - exact (spread_get "mimeType" [("mimeType", mimeType)] _ Ho).
  - exact (spread_get "mimeType" [("mimeType", JStr "text/html")] _ Ho).
  - exact (spread_get "mimeType" [("mimeType", JStr "application/json")] _ Ho).
Qed.

Lemma options_mimeType_replaces_the_argument_witness :
  JS.get (JS.get (json JNull (JObj [("mimeType", JStr "text/plain")])) "options") "mimeType"
  = JStr "text/plain".
Proof.
  exact (proj2 (proj2 (options_mimeType_replaces_the_argument JNull JUndefined
           (JObj [("mimeType", JStr "text/plain")]) eq_refl))).
Defined.

Lemma setProp_fresh k v acc :
  existsb (String.eqb k) (map fst acc) = false -> JS.setProp k v acc = acc ++ [(k, v)].
Proof.
  induction acc as [|[k0 v0] acc IH]; cbn [map fst existsb JS.setProp app];
    [reflexivity|].
  destruct (String.eqb k k0); [discriminate|]. intros H. rewrite (IH H). reflexivity.
Qed.

Lemma canonProps_plain l : forall acc,
  Forall (fun kv => plainJSON (snd kv) = true -> JSON.canon (snd kv) = snd kv) l ->
  forallb (fun kv => plainJSON (snd kv)) l = true ->
  distinct (map fst acc ++ map fst l) = true ->
  JSON.canonProps l acc = acc ++ l.
Proof.
  induction l as [|[k x] l IH]; intros acc Hc Hp Hd.
  - cbn [JSON.canonProps]. rewrite app_nil_r. reflexivity.
  - inversion Hc as [|? ? Hx Hl]; subst. cbn [forallb snd] in Hp, Hx.
    apply andb_true_iff in Hp as [Hpx Hpl].
    assert (Hk : existsb (String.eqb k) (map fst acc) = false
                 /\ distinct ((map fst acc ++ [k]) ++ map fst l) = true).
    { clear -Hd. cbn [map fst] in Hd. induction (map fst acc) as [|a ks IHk].
      - cbn in *. split; [reflexivity|exact Hd].
      - cbn [app distinct existsb] in *. apply andb_true_iff in Hd as [Ha Hd].
        destruct (IHk Hd) as [H1 H2]. rewrite H2, andb_true_r.
        apply negb_true_iff in Ha.
        rewrite existsb_app in Ha. cbn [existsb] in Ha.
        rewrite <- app_assoc. cbn [app]. rewrite existsb_app. cbn [existsb].
        apply orb_false_iff in Ha as [Ha1 Ha2]. apply orb_false_iff in Ha2 as [Ha2 Ha3].
        rewrite Ha1, Ha2, Ha3. cbn. split; [|reflexivity].
        rewrite String.eqb_sym, Ha2. exact H1. }
    destruct Hk as [Hfresh Hd'].
    rewrite JSONFacts.canonProps_defined by (intros ->; discriminate).
    rewrite (Hx Hpx), (setProp_fresh _ _ _ Hfresh).
    rewrite IH; [rewrite <- app_assoc; reflexivity|exact Hl|exact Hpl|].
    rewrite map_app. exact Hd'.
Qed.

Lemma canon_plain v : plainJSON v = true -> JSON.canon v = v.
Proof.
  induction v as [| |b|n|s|items IH|props IH] using jsval_induction;
    try reflexivity; try discriminate.
  - cbn [plainJSON JSON.canon]. intros Hp. f_equal.
    induction IH as [|x items Hx _ IHitems]; [reflexivity|].
    cbn [forallb map] in *. apply andb_true_iff in Hp as [Hpx Hp].
    rewrite (Hx Hpx), (IHitems Hp). reflexivity.
  - cbn [plainJSON]. intros Hp. apply andb_true_iff in Hp as [Hd Hp].
    rewrite JSONFacts.canon_object. f_equal.
    exact (canonProps_plain props [] IH Hp Hd).
Qed.

(** X7.  The body of the Success [json] builds for a value that JSON
    represents as it is (no [undefined] inside) is a text that
    [JSON.parse] gives the same value for. *)
Theorem json_body_parses_back v options :
  plainJSON v = true ->
  exists s, JS.get (json v options) "body" = JStr s /\ JSON_parse s = Some v.
Proof.
  intros Hp. unfold json, text, yxpSuccess. cbn [JS.get JS.lookupProp String.eqb Ascii.eqb Bool.eqb].
  unfold JSON_stringify. destruct (JSON.stringify v) as [t|] eqn:E.
  - exists (string_of_list_ascii t). split; [reflexivity|].
    unfold JSON_parse, JSON.chars. rewrite list_ascii_of_string_of_list_ascii.
    rewrite (JSONFacts.parse_stringify _ _ E), (canon_plain _ Hp). reflexivity.
  - apply JSONFacts.stringify_None in E. subst v. discriminate.
Qed.

Lemma json_body_parses_back_witness :
  exists s, JS.get (json isMeSent JUndefined) "body" = JStr s
            /\ JSON_parse s = Some isMeSent.
Proof. exact (json_body_parses_back isMeSent JUndefined eq_refl). Defined.

(** X8.  The [try] of [endpoint] also covers the formatter: when the cast
    of the value a handler returned throws, what was thrown goes to the
    [catch] clause as a throw of the handler does.  A Result is sent;
    anything else rejects the promise, and nothing is sent. *)
Theorem cast_failure_goes_to_the_catch_clause
    y action schemata formatter request response l1 sa l2 v e :
  validated request schemata l1 sa ->
  handlerRun y action sa request response = (l2, inr v) ->
  isYxpResults v = false ->
  cast (formatterOrBlank formatter) v = inl e ->
  let run := endpoint y action schemata formatter request response in
  run = (let (l3, r) := sendOrRethrow e in (l1 ++ EvAction :: l2 ++ EvCast :: l3, r))
  /\ (isYxpResultsExn e = false -> run = (l1 ++ EvAction :: l2 ++ [EvCast], inl e)).
Proof.
  intros Hv Hr Hn Hc run. subst run.
  rewrite (endpoint_returned _ _ _ _ _ _ _ _ _ _ Hv Hr).
  rewrite (sendUnknownResponse_plain _ _ Hn), Hc. cbn [catch].
  split.
  - destruct (sendOrRethrow e) as [l3 r]. reflexivity.
  - intros He. destruct e as [x|n m]; cbn [sendOrRethrow isYxpResultsExn] in *;
      [rewrite He|]; reflexivity.
Qed.

Lemma cast_failure_goes_to_the_catch_clause_witness :
  endpoint noServices (fun _ => Return (JNum 5)) Schemata.empty (Some IdRequired)
    (JObj []) anyResponse
  = ([EvAction; EvCast],
     inl (Native "TypeError" "the value could not be cast to an object")).
Proof.
  exact (proj2 (cast_failure_goes_to_the_catch_clause noServices
           (fun _ => Return (JNum 5)) Schemata.empty (Some IdRequired) (JObj [])
           anyResponse [] noArgs [] (JNum 5)
           (Native "TypeError" "the value could not be cast to an object")
           (conj eq_refl eq_refl) eq_refl eq_refl eq_refl) eq_refl).
Defined.

(* ================================================================== *)
(** ** The demonstration application *)
(* ================================================================== *)

Lemma isString_eq v s : JS.isString v s = true -> v = JStr s.
Proof.
  destruct v; try discriminate. cbn [JS.isString]. intros H.
  apply String.eqb_eq in H. subst. reflexivity.
Qed.

Lemma declared_user S : serviceFactoryArgs (Demo.yupress S) !! "user" = Some (Demo.user S).
Proof. apply lookup_singleton_eq. Qed.

Lemma usersGet_stored usr :
  In usr Demo.users -> Demo.usersGet (JNum (User.id usr)) = User.object usr.
Proof. intros [<-|[<-|[]]]; reflexivity. Qed.


(** The run of the handler of [/api/isme/:id]: the property [user] is read
    first, and the factory's outcome decides. *)
Lemma isMe_run S sa request response :
  handlerRun (Demo.yupress S) Demo.isMeAction sa request response
  = match Demo.user S {| req := request; res := response |} with
    | inr u =>
        ([EvGet "user"; EvFactory "user"],
         match JS.member u "id" with
         | inl e => inl e
         | inr userId =>
             inr (JObj [("user", u);
                        ("isme", JBool (Demo.strictEq
                                          (JS.get (JS.get sa "params") "id") userId))])
         end)
    | inl e => ([EvGet "user"; EvFactory "user"], inl e)
    end.
Proof.
  unfold handlerRun, Demo.isMeAction.
  destruct (Demo.user S _) as [e|u] eqn:E.
  - rewrite (runAction_read _ _ _ _ _ _ _ _ _
               (readService_threw _ _ _ _ _ _ (declared_user S) (lookup_empty _) E)).
    reflexivity.
  - rewrite (runAction_read _ _ _ _ _ _ _ _ _
               (readService_computed _ _ _ _ _ _ (declared_user S) (lookup_empty _) E)).
    cbn [addServices EndpointArgs.params]. destruct (JS.member u "id"); reflexivity.
Qed.


Lemma isme_validated P rprops p :
  validate P (JS.lookupProp "params" rprops) = inr p ->
  validated (JObj rprops)
    {| Schemata.params := Some P; Schemata.query := None; Schemata.body := None |}
    [EvValidate Params]
    (JObj [("params", JS.or p (JObj [])); ("query", JObj []); ("body", JObj [])]).
Proof.
  intros Hp.
  pose proof (validated_delivered rprops
                {| Schemata.params := Some P; Schemata.query := None;
                   Schemata.body := None |}) as H.
  cbn [Schemata.params Schemata.query Schemata.body delivered attempted app
       categoryKey passes] in H.
  rewrite Hp in H. apply H; eauto.
Qed.

(** X10.  [/api/isme/:id] answers a request that is not logged in with no
    user data.  When the cookies of the request do not validate, or the
    [USERID] they validate to is the id of no stored user: if the path
    parameter passes its validation, the response is status 401 with an
    empty body, whatever the output shape, and nothing is cast; if the path
    parameter fails its validation, the request ends there, with the
    status 400 of the failure, before the [user] service is read. *)
Theorem isme_requires_login S P F rprops response :
  let request := JObj rprops in
  let cookies := JS.get request "cookies" in
  (exists msg, validate S cookies = inl (Yup.ValidationError msg))
  \/ (exists v uid, validate S cookies = inr v
                    /\ JS.member v "USERID" = inr uid
                    /\ Demo.usersGet uid = JUndefined) ->
  Demo.apiIsme S P F request response
  = match validate P (JS.get request "params") with
    | inr _ =>
        ([EvValidate Params; EvAction; EvGet "user"; EvFactory "user";
          EvRes (Status (JNum 401)); EvRes (Send (JStr EmptyString))], inr tt)
    | inl e =>
        match message e with
        | inr m =>
            ([EvValidate Params; EvRes (Status (JNum 400));
              EvRes (Send (JS.dflt m (JStr EmptyString)))], inr tt)
        | inl thrown => ([EvValidate Params], inl thrown)
        end
    end.
Proof.
  intros request cookies Hc. subst request cookies. cbn [JS.get] in *.
  destruct (validate P (JS.lookupProp "params" rprops)) as [e|p] eqn:Hp.
  - unfold Demo.apiIsme, endpoint, getSchemataArgs.
    cbn [Schemata.params Schemata.query Schemata.body].
    rewrite (validateWith_rejects Params (Some P) rprops e
               (ex_intro _ P (conj eq_refl Hp))).
    cbn [bind catch liftE]. destruct (message e) as [t|m]; reflexivity.
  - assert (Hu : Demo.user S {| req := JObj rprops; res := response |}
                 = inl (Thrown (yxpError Demo.UNAUTHORIZED JUndefined))).
    { unfold Demo.user, Demo.getUser. cbn [req JS.member JS.get].
      destruct Hc as [[msg ->]|(v & uid & -> & -> & ->)]; reflexivity. }
    unfold Demo.apiIsme.
    rewrite (endpoint_threw _ _ _ _ _ _ _ _ [EvGet "user"; EvFactory "user"]
               (Thrown (yxpError Demo.UNAUTHORIZED JUndefined))
               (isme_validated P rprops p Hp)).
    + reflexivity.
    + rewrite isMe_run, Hu. reflexivity.
Qed.

Lemma isme_requires_login_witness :
  Demo.apiIsme Demo.cookieSchema IdRequired mixed paramsReq anyResponse
  = ([EvValidate Params; EvAction; EvGet "user"; EvFactory "user";
      EvRes (Status (JNum 401)); EvRes (Send (JStr EmptyString))], inr tt).
Proof.
  apply (isme_requires_login Demo.cookieSchema IdRequired mixed
           [("params", JObj [("id", JStr "3")])] anyResponse).
  right. exists (JObj [("USERID", JNum 0)]), (JNum 0). repeat split.
Defined.

(** X11.  [/api/isme/:id] for a logged-in user, with the output shape that
    declares [isme] and, of the user, [id] and [username]: the body is the
    JSON text of these fields alone.  The [password] the handler returns
    with the user is not sent. *)
Theorem isme_sends_no_password S P rprops response p v usr :
  let request := JObj rprops in
  validate P (JS.get request "params") = inr p ->
  validate S (JS.get request "cookies") = inr v ->
  JS.member v "USERID" = inr (JNum (User.id usr)) ->
  In usr Demo.users ->
  Demo.apiIsme S P (schemaOf (Object IsMeResponse)) request response
  = ([EvValidate Params; EvAction; EvGet "user"; EvFactory "user"; EvCast;
      EvRes (Status (JNum 200));
      EvRes (Send (JSON_stringify
        (JObj [("isme", JBool (Demo.strictEq (JS.get (JS.or p (JObj [])) "id")
                                             (JNum (User.id usr))));
               ("user", JObj [("id", JNum (User.id usr));
                              ("username", JStr (User.username usr))])])))],
     inr tt).
Proof.
  intros request Hp Hv Hid Hin. subst request. cbn [JS.get] in *.
  assert (Hu : Demo.user S {| req := JObj rprops; res := response |}
               = inr (User.object usr)).
  { unfold Demo.user, Demo.getUser. cbn [req JS.member JS.get].
    rewrite Hv, Hid, (usersGet_stored usr Hin). reflexivity. }
  unfold Demo.apiIsme.
  rewrite (endpoint_returned _ _ _ _ _ _ _ _ [EvGet "user"; EvFactory "user"]
             (JObj [("user", User.object usr);
                    ("isme", JBool (Demo.strictEq (JS.get (JS.or p (JObj [])) "id")
                                                  (JNum (User.id usr))))])
             (isme_validated P rprops p Hp)).
  - reflexivity.
  - rewrite isMe_run, Hu. reflexivity.
Qed.

Lemma isme_sends_no_password_witness :
  Demo.apiIsme Demo.cookieSchema IdRequired (schemaOf (Object IsMeResponse))
    (JObj [("params", JObj [("id", JNum 1)]);
           ("cookies", JObj [("USERID", JStr "1")])])
    anyResponse
  = ([EvValidate Params; EvAction; EvGet "user"; EvFactory "user"; EvCast;
      EvRes (Status (JNum 200)); EvRes (Send (JSON_stringify isMeSent))], inr tt).
Proof.
  apply (isme_sends_no_password Demo.cookieSchema IdRequired
           [("params", JObj [("id", JNum 1)]);
            ("cookies", JObj [("USERID", JStr "1")])]
           anyResponse (JObj [("id", JNum 1)]) (JObj [("USERID", JNum 1)])
           {| User.id := 1; User.username := "michael"; User.password := "swordfish" |}).
  - reflexivity.
  - reflexivity.
  - reflexivity.
  - left. reflexivity.
Defined.

Lemma login_validated L rprops b :
  validate L (JS.lookupProp "body" rprops) = inr b ->
  validated (JObj rprops)
    {| Schemata.params := None; Schemata.query := None; Schemata.body := Some L |}
    [EvValidate Body]
    (JObj [("params", JObj []); ("query", JObj []); ("body", JS.or b (JObj []))]).
Proof.
  intros Hb.
  pose proof (validated_delivered rprops
                {| Schemata.params := None; Schemata.query := None;
                   Schemata.body := Some L |}) as H.
  cbn [Schemata.params Schemata.query Schemata.body delivered attempted app
       categoryKey passes] in H.
  rewrite Hb in H. apply H; eauto.
Qed.

(** X12.  [/api/login], for a body that validates.  Either a stored user
    has the username and the password of the body: the response sets the
    cookie [USERID] to the decimal text of this user's id, with status 200
    and an empty JSON object as body.  Or no stored user has them: the
    response is status 401 with the body "username/password not found", and
    no cookie is set.  In both cases the [user] service is not read. *)
Theorem login_sets_the_cookie_of_a_matching_user S L rprops response b :
  let request := JObj rprops in
  let body := JS.or b (JObj []) in
  let matches usr :=
    JS.get body "username" = JStr (User.username usr)
    /\ JS.get body "password" = JStr (User.password usr) in
  validate L (JS.get request "body") = inr b ->
  (exists usr,
     In usr Demo.users /\ matches usr
     /\ Demo.apiLogin S L request response
        = ([EvValidate Body; EvAction;
            EvRes (Cookie "USERID" (JStr (Demo.toString (User.id usr))));
            EvRes (Status (JNum 200)); EvRes (Send (JSON_stringify (JObj [])))],
           inr tt))
  \/ ((forall usr, In usr Demo.users -> ~ matches usr)
      /\ Demo.apiLogin S L request response
         = ([EvValidate Body; EvAction; EvRes (Status (JNum 401));
             EvRes (Send (JStr "username/password not found"))], inr tt)).
Proof.
  intros request body matches Hb. subst request. cbn [JS.get] in Hb.
  pose proof (login_validated L rprops b Hb) as Hv. fold body in Hv.
  unfold Demo.apiLogin.
  destruct (find (fun u => JS.isString (JS.get body "username") (User.username u)
                           && JS.isString (JS.get body "password") (User.password u))
              Demo.users) as [usr|] eqn:E.
  - left. exists usr. pose proof E as E'. apply find_some in E' as [Hin Hm].
    apply andb_true_iff in Hm as [Hn Hw].
    split; [exact Hin|]. split; [split; apply isString_eq; assumption|].
    rewrite (endpoint_returned _ _ _ _ _ _ _ _ []
               (json (JObj [])
                  (JObj [("cookies",
                          JObj [("USERID", JStr (Demo.toString (User.id usr)))])]))
               Hv).
    + reflexivity.
    + unfold handlerRun, Demo.loginAction, Demo.login.
      cbn [addServices EndpointArgs.body JS.get JS.lookupProp String.eqb Ascii.eqb
           Bool.eqb]. fold body. rewrite E. reflexivity.
  - right. split.
    + intros usr Hin [Hn Hw]. pose proof (find_none _ _ E usr Hin) as Hf.
      cbv beta in Hf. rewrite Hn, Hw in Hf. cbn [JS.isString] in Hf.
      rewrite !String.eqb_refl in Hf. discriminate.
    + rewrite (endpoint_returned _ _ _ _ _ _ _ _ []
                 (yxpError Demo.UNAUTHORIZED (JStr "username/password not found")) Hv).
      * reflexivity.
      * unfold handlerRun, Demo.loginAction, Demo.login.
        cbn [addServices EndpointArgs.body JS.get JS.lookupProp String.eqb Ascii.eqb
             Bool.eqb]. fold body. rewrite E. reflexivity.
Qed.

Lemma login_sets_the_cookie_of_a_matching_user_witness :
  (exists usr,
     In usr Demo.users
     /\ (JStr "mary" = JStr (User.username usr)
         /\ JStr "catfish" = JStr (User.password usr))
     /\ Demo.apiLogin Demo.cookieSchema
          (Yup.object [("username", required "username");
                       ("password", required "password")])
          (JObj [("body", JObj [("username", JStr "mary");
                                ("password", JStr "catfish")])])
          anyResponse
        = ([EvValidate Body; EvAction;
            EvRes (Cookie "USERID" (JStr (Demo.toString (User.id usr))));
            EvRes (Status (JNum 200)); EvRes (Send (JSON_stringify (JObj [])))],
           inr tt))
  \/ ((forall usr, In usr Demo.users ->
         ~ (JStr "mary" = JStr (User.username usr)
            /\ JStr "catfish" = JStr (User.password usr)))
      /\ Demo.apiLogin Demo.cookieSchema
           (Yup.object [("username", required "username");
                        ("password", required "password")])
           (JObj [("body", JObj [("username", JStr "mary");
                                 ("password", JStr "catfish")])])
           anyResponse
         = ([EvValidate Body; EvAction; EvRes (Status (JNum 401));
             EvRes (Send (JStr "username/password not found"))], inr tt)).
Proof.
  exact (login_sets_the_cookie_of_a_matching_user Demo.cookieSchema
           (Yup.object [("username", required "username");
                        ("password", required "password")])
           [("body", JObj [("username", JStr "mary"); ("password", JStr "catfish")])]
           anyResponse
           (JObj [("username", JStr "mary"); ("password", JStr "catfish")])
           eq_refl).
Defined.

(** X13.  [/api/logout] needs no login and no input: for every request the
    response sets the cookie [USERID] to the empty string, with status 200
    and an empty JSON object as body; the [user] service is not read. *)
Theorem logout_clears_the_cookie S request response :
  Demo.apiLogout S request response
  = ([EvAction; EvRes (Cookie "USERID" (JStr EmptyString));
      EvRes (Status (JNum 200)); EvRes (Send (JSON_stringify (JObj [])))], inr tt).
Proof. reflexivity. Qed.

(** X14.  The cookies [login] gives for the credentials of a stored user
    carry the decimal text of this user's id; on a later request that
    carries them, and with a cookie schema that converts the text to the
    number, the [user] service yields this user. *)
Theorem login_cookie_identifies_the_user S usr response :
  let cookies := Demo.login (JStr (User.username usr)) (JStr (User.password usr)) in
  In usr Demo.users ->
  validate S cookies = inr (JObj [("USERID", JNum (User.id usr))]) ->
  cookies = JObj [("USERID", JStr (Demo.toString (User.id usr)))]
  /\ Demo.user S {| req := JObj [("cookies", cookies)]; res := response |}
     = inr (User.object usr).
Proof.
  intros cookies Hin Hv. subst cookies. split.
  - destruct Hin as [<-|[<-|[]]]; reflexivity.
  - unfold Demo.user, Demo.getUser. cbn [req JS.member JS.get JS.lookupProp].
    cbn [String.eqb Ascii.eqb Bool.eqb].
    rewrite Hv. cbn [JS.member JS.get JS.lookupProp String.eqb Ascii.eqb Bool.eqb].
    rewrite (usersGet_stored usr Hin). reflexivity.
Qed.

Lemma login_cookie_identifies_the_user_witness :
  Demo.login (JStr "mary") (JStr "catfish") = JObj [("USERID", JStr "3")]
  /\ Demo.user Demo.cookieSchema
       {| req := JObj [("cookies", Demo.login (JStr "mary") (JStr "catfish"))];
          res := anyResponse |}
     = inr (JObj [("id", JNum 3); ("username", JStr "mary");
                  ("password", JStr "catfish")]).
Proof.
  apply (login_cookie_identifies_the_user Demo.cookieSchema
           {| User.id := 3; User.username := "mary"; User.password := "catfish" |}
           anyResponse).
  - right. left. reflexivity.
  - reflexivity.
Defined.
